(** * Daily Activities Tracker: store codec, normalizer, template engine,
      history pruner and day controller of [src/App.js]

    The JavaScript values the program handles are embedded as [jsval];
    objects are finite maps from property names to values.  The functions
    below follow [src/App.js] definition by definition and keep its names. *)

From stdpp Require Import gmap strings list fin_maps sorting pretty.

Open Scope string_scope.
Open Scope list_scope.
Open Scope nat_scope.

Set Warnings "-register-all".

(** ** JavaScript values *)

(** Values as [JSON.parse] produces them, plus [undefined] (the result of
    reading a missing property).  Numbers are the integer ones (time stamps
    are milliseconds since the epoch).  A string is the sequence of the
    bytes of its UTF-8 encoding, so that its order is the order of [<] on
    the strings of the program (date keys and ids are ASCII text).  An
    object is the finite map of its own enumerable properties; the
    prototype link is added where the code assigns to a computed key (see
    [Obj] and [assignProp] below). *)
Inductive jsval : Type :=
  | JUndef
  | JNull
  | JBool (b : bool)
  | JNum (n : Z)
  | JStr (s : string)
  | JArr (l : list jsval)
  | JObj (m : gmap string jsval).

Global Instance jsval_inhabited : Inhabited jsval := populate JUndef.

(** [ToBoolean]: the falsy values are undefined, null, false, 0 and the
    empty string. *)
Definition truthy (v : jsval) : bool :=
  match v with
  | JUndef | JNull => false
  | JBool b => b
  | JNum n => negb (n =? 0)%Z
  | JStr s => negb (String.eqb s "")
  | JArr _ | JObj _ => true
  end.

(** [a || b] *)
Definition js_or (a b : jsval) : jsval := if truthy a then a else b.

(** [typeof v === 'object'] (true of null, arrays and objects) *)
Definition typeof_object (v : jsval) : bool :=
  match v with
  | JNull | JArr _ | JObj _ => true
  | _ => false
  end.

(** [typeof v === 'number'] *)
Definition typeof_number (v : jsval) : bool :=
  match v with JNum _ => true | _ => false end.

(** [Array.isArray(v)] *)
Definition isArray (v : jsval) : bool :=
  match v with JArr _ => true | _ => false end.

(** Index-keyed properties of an array-like: element [i] under the decimal
    name of [i]. *)
Fixpoint index_props (i : nat) (l : list jsval) : gmap string jsval :=
  match l with
  | [] => ∅
  | x :: l' => <[pretty i := x]> (index_props (S i) l')
  end.

Definition chars (s : string) : list jsval :=
  (fun c => JStr (String c "")) <$> String.list_ascii_of_string s.

(** The own enumerable properties of a value, as object spread [{...v}] and
    [Object.keys(v)] see them. *)
Definition own_props (v : jsval) : gmap string jsval :=
  match v with
  | JObj m => m
  | JArr l => index_props 0 l
  | JStr s => index_props 0 (chars s)
  | _ => ∅
  end.

(** Property read [v[k]] / [v?.[k]] of an own property; a missing property
    reads [undefined].  The names in [Object_prototype_keys] below are
    inherited by every object: for them the read is this one only when the
    property is an own one. *)
Definition get (v : jsval) (k : string) : jsval :=
  match v with
  | JObj m => default JUndef (m !! k)
  | JArr l =>
      if String.eqb k "length" then JNum (Z.of_nat (length l))
      else default JUndef (index_props 0 l !! k)
  | JStr s =>
      if String.eqb k "length" then JNum (Z.of_nat (String.length s))
      else default JUndef (index_props 0 (chars s) !! k)
  | _ => JUndef
  end.

(** Array spread [[...v]]: arrays and strings are iterable, anything else
    raises a TypeError ([None]). *)
Definition spread_array (v : jsval) : option (list jsval) :=
  match v with
  | JArr l => Some l
  | JStr s => Some (chars s)
  | _ => None
  end.

(** [Array.prototype.join] with separator [sep] over already converted
    elements. *)
Fixpoint join (sep : string) (l : list string) : string :=
  match l with
  | [] => ""
  | [s] => s
  | s :: l' => s +:+ sep +:+ join sep l'
  end.

(** ** The host: clock, random source, number printing, JSON, storage *)

(** What the program reads from its environment.  [clock n] is the [n]-th
    reading of [Date.now()], [random36 n] the [n]-th value of
    [Math.random().toString(36).slice(2, 9)], [radix36] is
    [Number.prototype.toString(36)], [exponential] is the decimal
    [Number.prototype.toString()] of a number of magnitude 1e21 or more
    (which prints in exponent notation), [JSON_parse] is [JSON.parse]
    ([None] when it throws) and [setItem_ok n] tells whether the [n]-th
    [localStorage.setItem] succeeds (it throws when the quota is exceeded). *)
Record Host := {
  clock : nat → Z;
  random36 : nat → string;
  radix36 : Z → string;
  exponential : Z → string;
  JSON_parse : string → option jsval;
  setItem_ok : nat → bool;
}.

(** [String(v)].  An integer below 1e21 in magnitude prints all its
    digits; inside an array, null and undefined elements print as the empty
    string; an object prints through the inherited
    [Object.prototype.toString] (an own [toString] property, with which
    [String] throws, is outside the model). *)
Fixpoint to_str (H : Host) (v : jsval) : string :=
  match v with
  | JUndef => "undefined"
  | JNull => "null"
  | JBool true => "true"
  | JBool false => "false"
  | JNum n => if (Z.abs n <? 10 ^ 21)%Z then pretty n else exponential H n
  | JStr s => s
  | JArr l =>
      join "," ((fix elems (l : list jsval) : list string :=
                   match l with
                   | [] => []
                   | JUndef :: l' => "" :: elems l'
                   | JNull :: l' => "" :: elems l'
                   | x :: l' => to_str H x :: elems l'
                   end) l)
  | JObj _ => "[object Object]"
  end.

(** ** [String.prototype.trim] *)

(** A string is the sequence of the bytes of its UTF-8 encoding. *)
Definition bytes (s : string) : list Ascii.ascii := String.list_ascii_of_string s.

Definition utf8 (codes : list nat) : list Ascii.ascii :=
  Ascii.ascii_of_nat <$> codes.

(** The white space and line terminator code points of ECMAScript, each as
    its UTF-8 bytes: U+0009 to U+000D, U+0020, U+00A0, U+1680, U+2000 to
    U+200A, U+2028, U+2029, U+202F, U+205F, U+3000 and U+FEFF. *)
Definition ws_chars : list (list Ascii.ascii) :=
  [utf8 [9]; utf8 [10]; utf8 [11]; utf8 [12]; utf8 [13]; utf8 [32];
   utf8 [194; 160];
   utf8 [225; 154; 128];
   utf8 [226; 128; 128]; utf8 [226; 128; 129]; utf8 [226; 128; 130];
   utf8 [226; 128; 131]; utf8 [226; 128; 132]; utf8 [226; 128; 133];
   utf8 [226; 128; 134]; utf8 [226; 128; 135]; utf8 [226; 128; 136];
   utf8 [226; 128; 137]; utf8 [226; 128; 138];
   utf8 [226; 128; 168]; utf8 [226; 128; 169];
   utf8 [226; 128; 175];
   utf8 [226; 129; 159];
   utf8 [227; 128; 128];
   utf8 [239; 187; 191]].

(** The rest of [l] after the prefix [p], if [l] starts with [p]. *)
Fixpoint strip_prefix (p l : list Ascii.ascii) : option (list Ascii.ascii) :=
  match p, l with
  | [], _ => Some l
  | a :: p', b :: l' => if Ascii.eqb a b then strip_prefix p' l' else None
  | _ :: _, [] => None
  end.

(** The rest of [l] after the first of the sequences [cs] it starts with. *)
Fixpoint first_stripped (cs : list (list Ascii.ascii)) (l : list Ascii.ascii)
    : option (list Ascii.ascii) :=
  match cs with
  | [] => None
  | c :: cs' =>
      match strip_prefix c l with
      | Some r => Some r
      | None => first_stripped cs' l
      end
  end.

(** Dropping leading members of [cs] for as long as there is one; at most
    [fuel] of them, and the length of the list is always enough. *)
Fixpoint strip_leading_go (cs : list (list Ascii.ascii)) (fuel : nat)
    (l : list Ascii.ascii) : list Ascii.ascii :=
  match fuel with
  | 0 => l
  | S n =>
      match first_stripped cs l with
      | Some r => strip_leading_go cs n r
      | None => l
      end
  end.

Definition strip_leading (cs : list (list Ascii.ascii)) (l : list Ascii.ascii)
    : list Ascii.ascii :=
  strip_leading_go cs (length l) l.

(** [trimStart]: without the leading white space. *)
Definition trim_start (l : list Ascii.ascii) : list Ascii.ascii :=
  strip_leading ws_chars l.

(** [trimEnd]: without the trailing white space, found by reading the bytes
    from the end. *)
Definition trim_end (l : list Ascii.ascii) : list Ascii.ascii :=
  reverse (strip_leading (reverse <$> ws_chars) (reverse l)).

Definition trim (s : string) : string :=
  String.string_of_list_ascii (trim_end (trim_start (bytes s))).

(** The part of the environment the program advances: how many clock
    readings and random draws were made, how many writes were attempted,
    and the snapshots that reached storage (newest first). *)
Record World := {
  ticks : nat;
  draws : nat;
  writes : nat;
  storage : list jsval;
}.

Global Instance World_inhabited : Inhabited World :=
  populate {| ticks := 0; draws := 0; writes := 0; storage := [] |}.

(** Computations that read and advance the world. *)
Definition M (A : Type) : Type := World → A * World.

Definition ret {A} (a : A) : M A := fun w => (a, w).

Definition bind {A B} (c : M A) (k : A → M B) : M B :=
  fun w => let (a, w') := c w in k a w'.

Notation "'let*' x ':=' c 'in' k" := (bind c (fun x => k))
  (at level 10, x pattern, c at level 100, k at level 200, only parsing).

(** [for (const x of l) ...] with an accumulator / [Array.prototype.map]
    with an effectful callback. *)
Fixpoint mapM {A B} (f : A → M B) (l : list A) : M (list B) :=
  match l with
  | [] => ret []
  | x :: l' => let* y := f x in let* ys := mapM f l' in ret (y :: ys)
  end.

(** The three buckets, [BUCKETS.map(b => b.id)]. *)
Definition BUCKETS : list string := ["morning"; "noon"; "evening"].

(** The local calendar date [new Date()] reads ([month] as [getMonth()]
    returns it, from 0). *)
Record LocalDate := { getFullYear : nat; getMonth : nat; getDate : nat }.

(** [s.padStart(2, '0')] *)
Definition padStart2 (s : string) : string :=
  match String.length s with
  | 0 => "00"
  | 1 => "0" +:+ s
  | _ => s
  end.

Definition todayKey (d : LocalDate) : string :=
  let y := getFullYear d in
  let m := padStart2 (pretty (getMonth d + 1)) in
  let day := padStart2 (pretty (getDate d)) in
  pretty y +:+ "-" +:+ m +:+ "-" +:+ day.

(** An activity item as the object literals of the source build it. *)
Definition mkItem (id text bucket done createdAt fromTemplate : jsval) : jsval :=
  JObj (<["id" := id]> (<["text" := text]> (<["bucket" := bucket]>
       (<["done" := done]> (<["createdAt" := createdAt]>
       (<["fromTemplate" := fromTemplate]> ∅)))))).

(** The three empty template buckets. *)
Definition emptyTemplates : jsval :=
  JObj (<["morning" := JArr []]> (<["noon" := JArr []]>
       (<["evening" := JArr []]> ∅))).

Definition mkStore (version templates days : jsval) : jsval :=
  JObj (<["version" := version]> (<["templates" := templates]>
       (<["days" := days]> ∅))).

(** [Array.prototype.splice(idx, 1)] on a copy: the list without the
    removed element.  A negative [idx] counts from the end. *)
Definition splice1 (idx : Z) (l : list jsval) : list jsval :=
  let len := Z.of_nat (length l) in
  let start := if (idx <? 0)%Z then Z.max (len + idx) 0 else Z.min idx len in
  let deleteCount := Z.min 1 (len - start) in
  take (Z.to_nat start) l ++ drop (Z.to_nat (start + deleteCount)) l.

(** The comparator [(a, b) => (a < b ? 1 : -1)]. *)
Definition cmp_desc (a b : string) : Z := if String.ltb a b then 1 else -1.

(** [Array.prototype.sort(cmp)]: [a] may stand before [b] when
    [cmp(a, b) <= 0]. *)
Definition precedes (cmp : string → string → Z) : relation string :=
  fun a b => (cmp a b ≤ 0)%Z.

Global Instance precedes_dec cmp : RelDecision (precedes cmp).
Proof. intros a b. unfold precedes. apply _. Defined.

Definition sort_by (cmp : string → string → Z) (l : list string) : list string :=
  merge_sort (precedes cmp) l.

Definition Object_keys (v : jsval) : list string := (map_to_list (own_props v)).*1.

(** [pruneHistory], on own properties: the keys in descending order, the
    first [keep] of them, each copied with its record.  The copy
    [kept[k] = daysObj[k]] is taken as the creation of the own property
    [k], which is what the assignment does for every key but [__proto__];
    [pruneHistory_heap] below follows the assignment for that key as well,
    and the two agree on every object that has no own property of that
    name. *)
Definition pruneHistory (daysObj : jsval) (keep : nat) : jsval :=
  let keys := sort_by cmp_desc (Object_keys (js_or daysObj (JObj ∅))) in
  JObj (foldl (fun kept k => <[k := get daysObj k]> kept) ∅ (take keep keys)).

(** ** Objects with their prototype link, and the pruner on them *)

(** The property names an ordinary object inherits from
    [Object.prototype]: a read [o[k]] of one of them that is no own
    property of [o] gives the inherited value, which is truthy, and not
    [undefined]; [get] is the read of own properties. *)
Definition Object_prototype_keys : list string :=
  ["constructor"; "hasOwnProperty"; "isPrototypeOf"; "propertyIsEnumerable";
   "toLocaleString"; "toString"; "valueOf"; "__defineGetter__";
   "__defineSetter__"; "__lookupGetter__"; "__lookupSetter__"; "__proto__"].

(** An object as the engine holds it: its own properties and its
    prototype, [None] standing for [Object.prototype] (the prototype of
    what an object literal, an object spread and [JSON.parse] build). *)
Record Obj := {
  own : gmap string jsval;
  proto : option jsval;
}.

(** [{}] *)
Definition newObj : Obj := {| own := ∅; proto := None |}.

Global Instance Obj_inhabited : Inhabited Obj := populate newObj.

(** Whether an assignment to [__proto__], on an object of prototype [p]
    without an own property of that name, finds the accessor of
    [Object.prototype]: it does unless the chain ends before it does (a
    [null] prototype) or holds a data property of that name before (an
    object read from JSON may have one). *)
Definition reaches_proto_setter (p : option jsval) : bool :=
  match p with
  | None => true
  | Some (JObj m) => bool_decide (m !! "__proto__" = None)
  | Some (JArr _) => true
  | Some _ => false
  end.

(** [o[k] = v] on an extensible object whose properties are writable data
    properties.  Every key but [__proto__] becomes an own property.  For
    [__proto__] the inherited setter runs: an object, an array or [null]
    becomes the prototype of [o], any other value is ignored, and in
    neither case does [o] get an own property. *)
Definition assignProp (k : string) (v : jsval) (o : Obj) : Obj :=
  if String.eqb k "__proto__" && bool_decide (own o !! k = None)
     && reaches_proto_setter (proto o)
  then if typeof_object v then {| own := own o; proto := Some v |} else o
  else {| own := <[k := v]> (own o); proto := proto o |}.

(** The truthiness of the read [o[k]] for an object of prototype
    [Object.prototype]. *)
Definition readTruthy (o : Obj) (k : string) : bool :=
  match own o !! k with
  | Some v => truthy v
  | None => bool_decide (k ∈ Object_prototype_keys)
  end.

(** The objects of the engine, by address. *)
Definition Heap := list Obj.

(** [pruneHistory] on the heap.  [daysObj] is the address of the argument
    ([None] for a falsy argument, in whose place [{}] is used); the result
    is the address of [kept].  The loop assigns to [kept] key by key, and
    reads each [daysObj[k]] from the heap as it then is; [k] being an own
    key of [daysObj], the read is that of the own property. *)
Definition pruneHistory_heap (h : Heap) (daysObj : option nat) (keep : nat)
    : nat * Heap :=
  let src := fun h' : Heap => default newObj (daysObj ≫= fun l => h' !! l) in
  let keys := sort_by cmp_desc (Object_keys (JObj (own (src h)))) in
  let kept := length h in
  (kept,
   foldl (fun h' k =>
            alter (assignProp k (default JUndef (own (src h') !! k))) kept h')
     (h ++ [newObj]) (take keep keys)).

Section Program.
Context (H : Host).

Definition Date_now : M Z :=
  fun w => (clock H (ticks w),
            {| ticks := S (ticks w); draws := draws w;
               writes := writes w; storage := storage w |}).

Definition Math_random36 : M string :=
  fun w => (random36 H (draws w),
            {| ticks := ticks w; draws := S (draws w);
               writes := writes w; storage := storage w |}).

Definition uid : M string :=
  let* t := Date_now in
  let* r := Math_random36 in
  ret (radix36 H t +:+ "-" +:+ r).

Definition safeJSONParse (raw : string) : jsval :=
  match JSON_parse H raw with
  | Some v => v
  | None => JNull
  end.

(** The document of a first run. *)
Definition defaultStore : jsval :=
  mkStore (JNum 2)
    (JObj (<["morning" := JArr [JStr "Water"; JStr "Stretch"; JStr "Plan day"]]>
          (<["noon" := JArr [JStr "Lunch"; JStr "5-min walk"]]>
          (<["evening" := JArr [JStr "Review day"; JStr "Read 10 min"]]> ∅))))
    (JObj ∅).

(** [loadStore], given what [localStorage.getItem(STORAGE_KEY)] returned
    ([None] for null).  In the backfill branch the returned object is given
    by its own properties: those of [parsed] (the index properties when
    [parsed] is an array) with the missing fields set. *)
Definition loadStore (raw : option string) : jsval :=
  match raw with
  | None => defaultStore
  | Some "" => defaultStore
  | Some raw =>
      let parsed := safeJSONParse raw in
      if negb (truthy parsed) || negb (typeof_object parsed) then JNull
      else if truthy (get parsed "dateKey") && isArray (get parsed "items") then
        mkStore (JNum 2) emptyTemplates
          (JObj (<[to_str H (get parsed "dateKey") := get parsed "items"]> ∅))
      else
        let p0 := own_props parsed in
        let p1 := if negb (truthy (get parsed "version"))
                  then <["version" := JNum 2]> p0 else p0 in
        let p2 := if negb (truthy (get parsed "templates"))
                  then <["templates" := emptyTemplates]> p1 else p1 in
        let p3 := if negb (truthy (get parsed "days"))
                  then <["days" := JObj ∅]> p2 else p2 in
        JObj p3
  end.

(** [saveStore]: the snapshot reaches storage unless [setItem] throws, and
    the exception is swallowed. *)
Definition saveStore (store : jsval) : M unit :=
  fun w => (tt,
            {| ticks := ticks w; draws := draws w; writes := S (writes w);
               storage := if setItem_ok H (writes w)
                          then store :: storage w else storage w |}).

(** The body of the inner loop of [makeItemsFromTemplates]: [None] when the
    template is skipped. *)
Definition templateItem (now : Z) (b : string) (t : jsval) : M (option jsval) :=
  let text := trim (to_str H (js_or t (JStr ""))) in
  if String.eqb text "" then ret None
  else
    let* id := uid in
    ret (Some (mkItem (JStr id) (JStr text) (JStr b) (JBool false)
                 (JNum now) (JBool true))).

Definition bucketItems (now : Z) (templates : jsval) (b : string) : M (list jsval) :=
  let list := match get templates b with JArr l => l | _ => [] end in
  let* its := mapM (templateItem now b) list in
  ret (omap id its).

Definition makeItemsFromTemplates (templates : jsval) : M jsval :=
  let* now := Date_now in
  let* per := mapM (bucketItems now templates) BUCKETS in
  ret (JArr (concat per)).

(** The callback of [.map] in [normalizeDayItems]. *)
Definition normalizeItem (x : jsval) : M jsval :=
  let* id := if truthy (get x "id") then ret (get x "id")
             else let* u := uid in ret (JStr u) in
  let text := JStr (trim (to_str H (js_or (get x "text") (JStr "")))) in
  let bucket := js_or (get x "bucket") (JStr "morning") in
  let done := JBool (truthy (get x "done")) in
  let* createdAt := if typeof_number (get x "createdAt")
                    then ret (get x "createdAt")
                    else let* t := Date_now in ret (JNum t) in
  let fromTemplate := JBool (truthy (get x "fromTemplate")) in
  ret (mkItem id text bucket done createdAt fromTemplate).

Definition normalizeDayItems (items : jsval) : M jsval :=
  match items with
  | JArr l =>
      let xs := List.filter (fun x => truthy x && typeof_object x) l in
      let* ys := mapM normalizeItem xs in
      ret (JArr (List.filter (fun x => truthy (get x "text")) ys))
  | _ => ret (JArr [])
  end.


(** ** The store updaters *)

(** The updater passed to [setStore] by the initial day load and by the
    rollover interval (the two bodies are the same): seed [tk] from the
    templates when the day is missing, prune, save.  The read and the
    assignment of [next.days[tk]] are those of an own property, as in
    [pruneHistory]; [seedDaySave] below follows them through the
    prototype. *)
Definition seedDayUpdater (tk : string) (prev : jsval) : M jsval :=
  let days0 := own_props (js_or (get prev "days") (JObj ∅)) in
  let next0 := <["days" := JObj days0]> (own_props prev) in
  let* days1 :=
    if negb (truthy (get (JObj days0) tk))
    then let* its := makeItemsFromTemplates (get (JObj next0) "templates") in
         ret (<[tk := its]> days0)
    else ret days0 in
  let next := JObj (<["days" := pruneHistory (JObj days1) 7]> next0) in
  let* u := saveStore next in
  ret next.

(** The updater of the effect that writes the working items back. *)
Definition persistItemsUpdater (dateKey : string) (items : jsval)
    (prev : jsval) : M jsval :=
  let days := <[dateKey := items]> (own_props (js_or (get prev "days") (JObj ∅))) in
  let next := JObj (<["days" := pruneHistory (JObj days) 7]> (own_props prev)) in
  let* u := saveStore next in
  ret next.

(** The updater of [addTemplateItem]; [None] when the array spread throws. *)
Definition addTemplateUpdater (tplBucket trimmed : string)
    (prev : jsval) : M (option jsval) :=
  match spread_array (js_or (get (get prev "templates") tplBucket) (JArr [])) with
  | None => ret None
  | Some old =>
      let templates :=
        JObj (<[tplBucket := JArr (JStr trimmed :: old)]>
                (own_props (get prev "templates"))) in
      let next := JObj (<["templates" := templates]> (own_props prev)) in
      let* u := saveStore next in
      ret (Some next)
  end.

(** The updater of [removeTemplateItem]; [None] when the array spread
    throws. *)
Definition removeTemplateUpdater (bucketId : string) (idx : Z)
    (prev : jsval) : M (option jsval) :=
  match spread_array (js_or (get (get prev "templates") bucketId) (JArr [])) with
  | None => ret None
  | Some copy =>
      let list := splice1 idx copy in
      let templates :=
        JObj (<[bucketId := JArr list]> (own_props (get prev "templates"))) in
      let next := JObj (<["templates" := templates]> (own_props prev)) in
      let* u := saveStore next in
      ret (Some next)
  end.

(** ** The component state and its transitions *)

Inductive Tab : Type := TabToday | TabTemplates | TabHistory.

(** The [useState] cells of [App] the day controller works on. *)
Record App := {
  tab : Tab;
  store : jsval;
  dateKey : string;
  items : jsval;
}.

(** The initializer of the [store] cell: [loadStore() || {...}]. *)
Definition initialStore (raw : option string) : jsval :=
  js_or (loadStore raw) (mkStore (JNum 2) emptyTemplates (JObj ∅)).

Definition initialApp (raw : option string) (tk : string) : App :=
  {| tab := TabToday; store := initialStore raw; dateKey := tk;
     items := JArr [] |}.

Definition setStore (f : jsval → M jsval) (a : App) : M App :=
  let* next := f (store a) in
  ret {| tab := tab a; store := next; dateKey := dateKey a; items := items a |}.

(** Initial day load (the first effect), [tk] being [todayKey()]. *)
Definition initialDayLoad (tk : string) (a : App) : M App :=
  setStore (seedDayUpdater tk)
    {| tab := tab a; store := store a; dateKey := tk; items := items a |}.

(** The effect that keeps [items] in sync with [store] and [dateKey]. *)
Definition syncItemsEffect (a : App) : M App :=
  let* its := normalizeDayItems (get (get (store a) "days") (dateKey a)) in
  ret {| tab := tab a; store := store a; dateKey := dateKey a; items := its |}.

(** The effect that persists the current items back into the store. *)
Definition persistItemsEffect (a : App) : M App :=
  setStore (persistItemsUpdater (dateKey a) (items a)) a.

(** One firing of the 30 second interval, [tk] being [todayKey()]. *)
Definition rolloverTick (tk : string) (a : App) : M App :=
  if decide (dateKey a ≠ tk) then
    let* a' := setStore (seedDayUpdater tk) a in
    ret {| tab := TabToday; store := store a'; dateKey := tk; items := items a' |}
  else ret a.

Definition openHistoryDay (k : string) (a : App) : App :=
  {| tab := TabToday; store := store a; dateKey := k; items := items a |}.

(** What React runs once [dateKey] has changed: the sync effect sets a new
    [items] array, which in turn fires the persist effect. *)
Definition afterDateKeyChange (a : App) : M App :=
  let* a1 := syncItemsEffect a in
  persistItemsEffect a1.

(** Opening a day of the history list and letting the effects run. *)
Definition viewHistoryDay (k : string) (a : App) : M App :=
  let a1 := openHistoryDay k a in
  if decide (dateKey a = k) then ret a1 else afterDateKeyChange a1.

(** ** Writes to storage *)

(** The operations that write the document. *)
Inductive StoreOp : Type :=
  | OpSeed (tk : string)
  | OpPersist (dateKey : string) (items : jsval)
  | OpAddTemplate (tplBucket tplText : string)
  | OpRemoveTemplate (bucketId : string) (idx : Z).

(** [None]: the operation threw before writing. *)
Definition applyOp (op : StoreOp) (prev : jsval) : M (option jsval) :=
  match op with
  | OpSeed tk => let* s := seedDayUpdater tk prev in ret (Some s)
  | OpPersist k its => let* s := persistItemsUpdater k its prev in ret (Some s)
  | OpAddTemplate b text =>
      let trimmed := trim text in
      if String.eqb trimmed "" then ret (Some prev)
      else addTemplateUpdater b trimmed prev
  | OpRemoveTemplate b idx => removeTemplateUpdater b idx prev
  end.

(** A session: the operations in order, stopping at the first that throws. *)
Fixpoint runOps (ops : list StoreOp) (s : jsval) : M jsval :=
  match ops with
  | [] => ret s
  | op :: ops' =>
      let* r := applyOp op s in
      match r with
      | Some s' => runOps ops' s'
      | None => ret s
      end
  end.

End Program.

(** ** What the initial day load writes *)

(** The snapshot the updater of the initial day load (and of the rollover
    interval) hands to [saveStore], with the two assignments followed on
    the objects: [next.days] is a fresh object holding the own properties
    of [prev.days]; [next.days[tk]] is read through the prototype, and
    assigned when it is falsy; the pruned object is serialized, which
    writes its own properties. *)
Definition seedDaySave (H : Host) (tk : string) (prev : jsval) : M unit :=
  let days0 := {| own := own_props (js_or (get prev "days") (JObj ∅));
                  proto := None |} in
  let next0 := <["days" := JObj (own days0)]> (own_props prev) in
  let* days1 :=
    if negb (readTruthy days0 tk)
    then let* its := makeItemsFromTemplates H (get (JObj next0) "templates") in
         ret (assignProp tk its days0)
    else ret days0 in
  let '(kept, h) := pruneHistory_heap [days1] (Some 0) 7 in
  saveStore H (JObj (<["days" := JObj (own (default newObj (h !! kept)))]> next0)).

(** ** The documents of a session *)


(** ** White space, by its specification *)

(** A list of bytes that is a run of members of [cs]. *)
Inductive Blank (cs : list (list Ascii.ascii)) : list Ascii.ascii → Prop :=
  | Blank_nil : Blank cs []
  | Blank_cons c p : c ∈ cs → Blank cs p → Blank cs (c ++ p).

(** The first byte of the UTF-8 encoding of a code point (any byte but
    the continuation bytes 128 to 191). *)
Definition is_lead (b : Ascii.ascii) : bool :=
  (Ascii.nat_of_ascii b <? 128) || (192 <=? Ascii.nat_of_ascii b).

(** The UTF-8 encoding of one code point, by its shape: a first byte and
    continuation bytes. *)
Definition code_ok (c : list Ascii.ascii) : bool :=
  match c with
  | [] => false
  | b :: r => is_lead b && forallb (fun x => negb (is_lead x)) r
  end.

(** No member of [cs] is the start of another. *)
Definition prefix_free (cs : list (list Ascii.ascii)) : bool :=
  forallb (fun c =>
             forallb (fun c' => match strip_prefix c c' with
                                | Some (_ :: _) => false
                                | _ => true
                                end) cs) cs.

(** A run of white space characters. *)
Definition WhiteSpace (l : list Ascii.ascii) : Prop := Blank ws_chars l.

(** [t] is [s] without a run of white space at its start and one at its
    end, and [t] itself neither starts nor ends with a white space
    character. *)
Definition Trimmed (s t : string) : Prop :=
  ∃ p q, bytes s = p ++ bytes t ++ q
         ∧ WhiteSpace p ∧ WhiteSpace q
         ∧ (∀ c r, c ∈ ws_chars → bytes t ≠ c ++ r)
         ∧ (∀ c r, c ∈ ws_chars → bytes t ≠ r ++ c).

(** [ts] are the texts kept from the strings [ss], in order: a string made
    of white space only is skipped, any other contributes its trimmed
    form, which is not empty. *)
Inductive TrimKept : list string → list string → Prop :=
  | TrimKept_nil : TrimKept [] []
  | TrimKept_skip s ss ts :
      WhiteSpace (bytes s) → TrimKept ss ts → TrimKept (s :: ss) ts
  | TrimKept_keep s t ss ts :
      Trimmed s t → t ≠ "" → TrimKept ss ts → TrimKept (s :: ss) (t :: ts).

(** ** Definitions used by the statements *)

(** The keys [pruneHistory] retains from a plain object. *)
Definition keptKeys (days : gmap string jsval) (keep : nat) : list string :=
  take keep (sort_by cmp_desc (Object_keys (JObj days))).

(** A well-formed item: the six fields and nothing else, with a truthy
    [id], a trimmed [text], a truthy [bucket], boolean flags and a numeric
    time stamp. *)
Definition shapedItem (x : jsval) : Prop :=
  ∃ id text bucket done createdAt fromTemplate,
    x = mkItem id (JStr text) bucket (JBool done) (JNum createdAt)
          (JBool fromTemplate)
    ∧ truthy id = true ∧ trim text = text ∧ truthy bucket = true.

(** A normalized item: well-formed, with a text that is not empty. *)
Definition normalItem (x : jsval) : Prop :=
  shapedItem x ∧ truthy (get x "text") = true.

(** The texts a bucket contributes: its template strings, trimmed, in
    stored order, without those that are empty after trimming. *)
Definition templateTexts (H : Host) (templates : jsval) (b : string)
    : list string :=
  List.filter (fun s => negb (String.eqb s ""))
    ((fun t => trim (to_str H (js_or t (JStr ""))))
       <$> match get templates b with JArr l => l | _ => [] end).

(** The world after [n] further calls of [uid()]. *)
Definition afterUids (n : nat) (w : World) : World :=
  {| ticks := ticks w + n; draws := draws w + n;
     writes := writes w; storage := storage w |}.

(** The item made for [text] in bucket [b] by the [i]-th call of [uid()]
    counted from clock reading [t0] and random draw [d0]. *)
Definition itemAt (H : Host) (now : Z) (t0 d0 : nat) (b : string)
    (i : nat) (text : string) : jsval :=
  mkItem (JStr (radix36 H (clock H (t0 + i)) +:+ "-" +:+ random36 H (d0 + i)))
    (JStr text) (JStr b) (JBool false) (JNum now) (JBool true).

(** The (bucket, text) pairs of an expansion, in output order. *)
Definition expansionTexts (H : Host) (templates : jsval)
    : list (string * string) :=
  (pair "morning" <$> templateTexts H templates "morning")
  ++ (pair "noon" <$> templateTexts H templates "noon")
  ++ (pair "evening" <$> templateTexts H templates "evening").

(** The elements of an array value. *)
Definition arrayItems (v : jsval) : list jsval :=
  match v with JArr l => l | _ => [] end.

(** A document whose days map came out of the pruner. *)
Definition prunedStore (s : jsval) : Prop :=
  ∃ cand : gmap string jsval, get s "days" = pruneHistory (JObj cand) 7.





(** What a call of [saveStore] may have added to storage. *)
Definition wrote (next : jsval) (w w' : World) : Prop :=
  storage w' = storage w ∨ storage w' = next :: storage w.

(** The double quote character. *)
Definition dq : string := String (Ascii.ascii_of_nat 34) EmptyString.

Definition quoted (s : string) : string := dq +:+ s +:+ dq.

(** The legacy blob: an object with [dateKey] 2023-12-31 and [items] one
    object of [text] X, as JSON text. *)
Definition legacyBlob : string :=
  "{" +:+ quoted "dateKey" +:+ ":" +:+ quoted "2023-12-31" +:+ ","
  +:+ quoted "items" +:+ ":[{" +:+ quoted "text" +:+ ":" +:+ quoted "X"
  +:+ "}]}".

Definition legacyFields : gmap string jsval :=
  <["dateKey" := JStr "2023-12-31"]>
    (<["items" := JArr [JObj (<["text" := JStr "X"]> ∅)]]> ∅).

(** A blob of the legacy shape whose [dateKey] is the empty string and
    whose [items] is the empty array, as JSON text. *)
Definition emptyKeyBlob : string :=
  "{" +:+ quoted "dateKey" +:+ ":" +:+ quoted "" +:+ ","
  +:+ quoted "items" +:+ ":[]}".

Definition emptyKeyFields : gmap string jsval :=
  <["dateKey" := JStr ""]> (<["items" := JArr []]> ∅).

(** [JSON.parse] on the blobs used below; every other text is taken to be
    malformed. *)
Definition demoParse (raw : string) : option jsval :=
  if String.eqb raw legacyBlob then Some (JObj legacyFields)
  else if String.eqb raw emptyKeyBlob then Some (JObj emptyKeyFields)
  else if String.eqb raw "5" then Some (JNum 5)
  else if String.eqb raw "null" then Some JNull
  else None.

Definition demoHost : Host :=
  {| clock := fun n => (1700000000000 + Z.of_nat n)%Z;
     random36 := fun n => "r" +:+ pretty n;
     radix36 := fun z => "t" +:+ pretty z;
     exponential := fun z => pretty z;
     JSON_parse := demoParse;
     setItem_ok := fun _ => true |}.

Definition world0 : World :=
  {| ticks := 0; draws := 0; writes := 0; storage := [] |}.

(** The state after loading the legacy blob on 2024-01-01 and running the
    initial day load. *)
Definition legacyApp : App :=
  fst (initialDayLoad demoHost "2024-01-01"
         (initialApp demoHost (Some legacyBlob) "2024-01-01") world0).

(** A document with a record for 2024-01-01 and one for 2024-01-05. *)
Definition twoDayStore : jsval :=
  mkStore (JNum 2) emptyTemplates
    (JObj (<["2024-01-01" := JArr []]> (<["2024-01-05" := JArr []]> ∅))).

(** The view on 2024-01-05 after the user opened 2024-01-01 from the
    history list. *)
Definition browsingApp : App :=
  openHistoryDay "2024-01-01"
    {| tab := TabHistory; store := twoDayStore; dateKey := "2024-01-05";
       items := JArr [] |}.

(** The document and state used to exercise the history view. *)
Definition viewedDays : gmap string jsval :=
  <["2023-12-31" := JArr [JObj (<["text" := JStr "X"]> ∅)]]>
    (<["2024-01-01" := JArr []]> ∅).

Definition viewedFields : gmap string jsval :=
  <["version" := JNum 2]> (<["templates" := emptyTemplates]>
    (<["days" := JObj viewedDays]> ∅)).

Definition viewedApp : App :=
  {| tab := TabHistory; store := JObj viewedFields; dateKey := "2024-01-01";
     items := JArr [] |}.

(** Nine days, 2023-12-30 to 2024-01-07, each with an empty record. *)
Definition nineDays : gmap string jsval :=
  list_to_map ((fun k => (k, JArr [])) <$>
    ["2024-01-03"; "2023-12-30"; "2024-01-07"; "2024-01-01"; "2023-12-31";
     "2024-01-05"; "2024-01-02"; "2024-01-06"; "2024-01-04"]).

(** The templates of the expansion example: A, B and C, one per bucket. *)
Definition abcTemplates : jsval :=
  JObj (<["morning" := JArr [JStr "A"]]> (<["noon" := JArr [JStr "B"]]>
       (<["evening" := JArr [JStr "C"]]> ∅))).

(** ** The activity board and the history list *)

(** [v === s] for a string [s]: true exactly of the string [s] itself. *)
Definition strict_eq_str (v : jsval) (s : string) : bool :=
  match v with
  | JStr s' => String.eqb s' s
  | _ => false
  end.

(** [prev.map(f)] on the [items] cell; anything but an array has no [map]
    and the call throws ([None]). *)
Definition array_map (f : jsval → jsval) (prev : jsval) : option jsval :=
  match prev with
  | JArr l => Some (JArr (f <$> l))
  | _ => None
  end.

(** [prev.filter(f)], likewise. *)
Definition array_filter (f : jsval → bool) (prev : jsval) : option jsval :=
  match prev with
  | JArr l => Some (JArr (List.filter f l))
  | _ => None
  end.

(** [{ ...it, done: d }] *)
Definition withDone (d : bool) (it : jsval) : jsval :=
  JObj (<["done" := JBool d]> (own_props it)).

(** The updater of [toggleDone(id)], for an id that is a string (as the
    ids made by [uid()] are). *)
Definition toggleDone (id : string) (prev : jsval) : option jsval :=
  array_map (fun it => if strict_eq_str (get it "id") id
                       then withDone (negb (truthy (get it "done"))) it
                       else it) prev.

(** The updater of [removeItem(id)], for a string id. *)
Definition removeItem (id : string) (prev : jsval) : option jsval :=
  array_filter (fun it => negb (strict_eq_str (get it "id") id)) prev.

(** The updater of [clearCompleted()]. *)
Definition clearCompleted (prev : jsval) : option jsval :=
  array_filter (fun it => negb (truthy (get it "done"))) prev.

(** The updater of [markAllDone(bucketId)]. *)
Definition markAllDone (bucketId : string) (prev : jsval) : option jsval :=
  array_map (fun it => if strict_eq_str (get it "bucket") bucketId
                       then withDone true it else it) prev.

(** [historyKeys]: the keys of [store.days], newest first. *)
Definition historyKeys (store : jsval) : list string :=
  sort_by cmp_desc (Object_keys (js_or (get store "days") (JObj ∅))).

(** [isToday], [tk] being [todayKey()]. *)
Definition isToday (tk : string) (a : App) : bool := String.eqb (dateKey a) tk.

Section Board.
Context (H : Host).

(** [addItem], [text] and [bucket] being the input cells: the new [items],
    unchanged when the trimmed text is empty, [None] when the array spread
    of [prev] throws. *)
Definition addItem (text bucket : string) (prev : jsval) : M (option jsval) :=
  let trimmed := trim text in
  if String.eqb trimmed "" then ret (Some prev)
  else
    let* id := uid H in
    let* now := Date_now H in
    let newItem := mkItem (JStr id) (JStr trimmed) (JStr bucket) (JBool false)
                     (JNum now) (JBool false) in
    ret (match spread_array prev with
         | Some l => Some (JArr (newItem :: l))
         | None => None
         end).

(** [resetToday], [tk] being [todayKey()]. *)
Definition resetToday (tk : string) (a : App) : M App :=
  let* its := makeItemsFromTemplates H (get (store a) "templates") in
  ret {| tab := tab a; store := store a; dateKey := tk; items := its |}.

(** [applyTemplatesToToday], [tk] being [todayKey()]. *)
Definition applyTemplatesToToday (tk : string) (a : App) : M App :=
  let* its := makeItemsFromTemplates H (get (store a) "templates") in
  ret {| tab := TabToday; store := store a; dateKey := tk; items := its |}.

End Board.

(** ** Calendar dates *)

(** A date of a four-digit year, as [new Date()] reports it: the month from
    0 to 11, the day of the month from 1 to 31. *)
Definition validDate (d : LocalDate) : Prop :=
  1000 ≤ getFullYear d < 10 * 1000 ∧ getMonth d ≤ 11 ∧ 1 ≤ getDate d ≤ 31.

(** [d1] is an earlier calendar day than [d2]. *)
Definition earlier (d1 d2 : LocalDate) : Prop :=
  getFullYear d1 < getFullYear d2
  ∨ (getFullYear d1 = getFullYear d2
     ∧ (getMonth d1 < getMonth d2
        ∨ (getMonth d1 = getMonth d2 ∧ getDate d1 < getDate d2))).

(** ** Further concrete inputs *)

(** A current-format blob as JSON text: an object with [version] 2 and
    empty objects for [templates] and [days]. *)
Definition currentBlob : string :=
  "{" +:+ quoted "version" +:+ ":2," +:+ quoted "templates" +:+ ":{},"
  +:+ quoted "days" +:+ ":{}}".

Definition currentFields : gmap string jsval :=
  <["version" := JNum 2]> (<["templates" := JObj ∅]> (<["days" := JObj ∅]> ∅)).

(** A host whose [JSON.parse] reads [currentBlob]. *)
Definition currentHost : Host :=
  {| clock := clock demoHost;
     random36 := random36 demoHost;
     radix36 := radix36 demoHost;
     exponential := exponential demoHost;
     JSON_parse := fun raw => if String.eqb raw currentBlob
                              then Some (JObj currentFields) else None;
     setItem_ok := fun _ => false |}.

(** Two normalized items. *)
Definition sampleItems : list jsval :=
  [mkItem (JStr "a1") (JStr "Water") (JStr "morning") (JBool false) (JNum 10)
     (JBool true);
   mkItem (JStr "a2") (JStr "Call Ann") (JStr "noon") (JBool true) (JNum 20)
     (JBool false)].


(** A document with the A, B, C templates and the two viewed days. *)
Definition abcFields : gmap string jsval :=
  <["version" := JNum 2]> (<["templates" := abcTemplates]>
    (<["days" := JObj viewedDays]> ∅)).

(** The view on 2024-01-01 with the sample items as working copy. *)
Definition sampleApp : App :=
  {| tab := TabToday; store := JObj abcFields; dateKey := "2024-01-01";
     items := JArr sampleItems |}.

(** The buckets of the A, B, C templates. *)
Definition abcBuckets : gmap string jsval :=
  <["morning" := JArr [JStr "A"]]> (<["noon" := JArr [JStr "B"]]>
    (<["evening" := JArr [JStr "C"]]> ∅)).








(** The no-break space U+00A0 and the ideographic space U+3000. *)
Definition nbsp : string :=
  String.string_of_list_ascii (utf8 [194; 160]).

Definition ideographic_space : string :=
  String.string_of_list_ascii (utf8 [227; 128; 128]).

(** Templates with white space around and between them. *)
Definition paddedTemplates : jsval :=
  JObj (<["morning" := JArr [JStr (nbsp +:+ "Water "); JStr nbsp; JNull]]>
       (<["noon" := JArr [JStr "Lunch"; JStr (" " +:+ ideographic_space)]]>
       (<["evening" := JNum 7]> ∅))).

(** A stored day with an element that is no object, an item of padded
    text, an item of white space only and an item without text. *)
Definition rawDay : jsval :=
  JArr [JNum 3;
        JObj (<["text" := JStr (" Call Ann" +:+ nbsp)]> ∅);
        JObj (<["id" := JStr "a"]> (<["text" := JStr nbsp]> ∅));
        JObj (<["done" := JBool true]> ∅)].

(** * Properties *)

(** ** String order and the sort *)

Lemma ltb_false_le (a b : string) : String.ltb a b = false ↔ String.le b a.
Proof.
  unfold String.le, String.ltb, String.leb.
  rewrite (String.compare_antisym b a).
  destruct (String.compare a b); simpl; split; intros; done.
Qed.

Lemma precedes_desc (a b : string) : precedes cmp_desc a b ↔ String.le b a.
Proof.
  rewrite <- ltb_false_le. unfold precedes, cmp_desc.
  destruct (String.ltb a b); split; intros; try done; lia.
Qed.

Global Instance precedes_desc_trans : Transitive (precedes cmp_desc).
Proof.
  intros a b c. rewrite !precedes_desc. intros ? ?. by trans b.
Qed.

Global Instance precedes_desc_total : Total (precedes cmp_desc).
Proof.
  intros a b. rewrite !precedes_desc. destruct (total String.le a b); auto.
Qed.

Lemma precedes_desc_ne_ltb (a b : string) :
  precedes cmp_desc a b → a ≠ b → String.ltb b a = true.
Proof.
  rewrite precedes_desc. intros Hle Hne.
  destruct (String.ltb b a) eqn:E; [done|].
  apply ltb_false_le in E. destruct Hne. by apply (anti_symm String.le).
Qed.

Lemma sort_by_desc_sorted (l : list string) :
  StronglySorted (precedes cmp_desc) (sort_by cmp_desc l).
Proof. apply StronglySorted_merge_sort; apply _. Qed.

Lemma sort_by_perm cmp (l : list string) : sort_by cmp l ≡ₚ l.
Proof. apply merge_sort_Permutation. Qed.

Global Instance precedes_desc_antisym : AntiSymm (=) (precedes cmp_desc).
Proof.
  intros a b. rewrite !precedes_desc. intros ? ?.
  by apply (anti_symm String.le).
Qed.

(** The sorted keys do not depend on the order in which the keys of the
    object are enumerated. *)
Lemma sort_by_desc_enumeration (l1 l2 : list string) :
  l1 ≡ₚ l2 → sort_by cmp_desc l1 = sort_by cmp_desc l2.
Proof.
  intros Hp. apply (StronglySorted_unique (precedes cmp_desc)).
  - apply sort_by_desc_sorted.
  - apply sort_by_desc_sorted.
  - by rewrite !sort_by_perm.
Qed.

(** ** The history pruner *)

Lemma foldl_insert_lookup (d : jsval) (ks : list string)
    (acc : gmap string jsval) (k : string) :
  foldl (fun kept k => <[k := get d k]> kept) acc ks !! k
  = if decide (k ∈ ks) then Some (get d k) else acc !! k.
Proof.
  revert acc. induction ks as [|k0 ks IH]; intros acc; cbn [foldl].
  - rewrite decide_False; [done|apply not_elem_of_nil].
  - rewrite IH. destruct (decide (k ∈ ks)) as [Hin|Hnin].
    + rewrite decide_True; [done|by right].
    + destruct (decide (k = k0)) as [->|Hne].
      * rewrite decide_True; [|by left]. by rewrite lookup_insert_eq.
      * rewrite decide_False; [by rewrite lookup_insert_ne|].
        intros [?|?]%elem_of_cons; done.
Qed.

Lemma sorted_keys_perm (days : gmap string jsval) :
  sort_by cmp_desc (Object_keys (JObj days)) ≡ₚ (map_to_list days).*1.
Proof. apply sort_by_perm. Qed.

Lemma sorted_keys_NoDup (days : gmap string jsval) :
  NoDup (sort_by cmp_desc (Object_keys (JObj days))).
Proof. rewrite sorted_keys_perm. apply NoDup_fst_map_to_list. Qed.

Lemma elem_of_sorted_keys (days : gmap string jsval) (k : string) :
  k ∈ sort_by cmp_desc (Object_keys (JObj days)) ↔ is_Some (days !! k).
Proof.
  rewrite sorted_keys_perm, list_elem_of_fmap. split.
  - intros [[k' v] [-> Hin]]. apply elem_of_map_to_list in Hin. by exists v.
  - intros [v Hv]. exists (k, v). split; [done|]. by apply elem_of_map_to_list.
Qed.

Lemma keptKeys_NoDup days keep : NoDup (keptKeys days keep).
Proof.
  unfold keptKeys.
  pose proof (sorted_keys_NoDup days) as Hnd.
  rewrite <- (take_drop keep) in Hnd. by apply NoDup_app in Hnd as [? _].
Qed.

Lemma keptKeys_in_days days keep k :
  k ∈ keptKeys days keep → is_Some (days !! k).
Proof.
  unfold keptKeys. intros Hin. apply elem_of_sorted_keys.
  apply elem_of_take in Hin as (i & Hi & _). by eapply list_elem_of_lookup_2.
Qed.

Lemma keptKeys_length days keep :
  length (keptKeys days keep) = min keep (size days).
Proof.
  unfold keptKeys. rewrite length_take.
  by rewrite (Permutation_length (sorted_keys_perm days)), length_fmap,
    length_map_to_list.
Qed.


Lemma pruneHistory_obj (days : gmap string jsval) (keep : nat) :
  pruneHistory (JObj days) keep
  = JObj (foldl (fun kept k => <[k := get (JObj days) k]> kept) ∅
            (keptKeys days keep)).
Proof. reflexivity. Qed.

Lemma pruneHistory_lookup (days : gmap string jsval) (keep : nat) (k : string) :
  own_props (pruneHistory (JObj days) keep) !! k
  = if decide (k ∈ keptKeys days keep) then days !! k else None.
Proof.
  rewrite pruneHistory_obj. cbn [own_props]. rewrite foldl_insert_lookup.
  case_decide as Hin; [|done].
  apply keptKeys_in_days in Hin as [v Hv]. simpl. by rewrite Hv.
Qed.

Lemma pruneHistory_dom (days : gmap string jsval) (keep : nat) :
  dom (own_props (pruneHistory (JObj days) keep))
  = list_to_set (keptKeys days keep).
Proof.
  apply set_eq. intros k.
  rewrite elem_of_dom, pruneHistory_lookup, elem_of_list_to_set.
  case_decide as Hin.
  - split; [done|]. intros _. by apply keptKeys_in_days in Hin.
  - split; [by intros [? ?]|done].
Qed.


Lemma pruneHistory_size (days : gmap string jsval) (keep : nat) :
  size (own_props (pruneHistory (JObj days) keep)) = min keep (size days).
Proof.
  rewrite <- size_dom, pruneHistory_dom, size_list_to_set by apply keptKeys_NoDup.
  apply keptKeys_length.
Qed.

Lemma pruneHistory_small (days : gmap string jsval) (keep : nat) :
  (size days ≤ keep)%nat → pruneHistory (JObj days) keep = JObj days.
Proof.
  intros Hle. rewrite pruneHistory_obj. f_equal.
  apply map_subseteq_size_eq.
  - apply map_subseteq_spec. intros k v.
    pose proof (pruneHistory_lookup days keep k) as Hl.
    rewrite pruneHistory_obj in Hl. cbn [own_props] in Hl. rewrite Hl.
    case_decide; [done|]. done.
  - pose proof (pruneHistory_size days keep) as Hs.
    rewrite pruneHistory_obj in Hs. cbn [own_props] in Hs. rewrite Hs. lia.
Qed.

(** *** The pruner on the heap *)

Lemma assignProp_other (k : string) (v : jsval) (o : Obj) :
  k ≠ "__proto__" →
  assignProp k v o = {| own := <[k := v]> (own o); proto := proto o |}.
Proof.
  intros Hk. unfold assignProp.
  destruct (String.eqb_spec k "__proto__") as [->|_]; done.
Qed.

Lemma assignProp_proto (v : jsval) (o : Obj) :
  own o !! "__proto__" = None → proto o = None →
  assignProp "__proto__" v o
  = if typeof_object v then {| own := own o; proto := Some v |} else o.
Proof.
  intros Hown Hproto. unfold assignProp. rewrite Hproto.
  cbn [String.eqb Ascii.eqb Bool.eqb reaches_proto_setter andb].
  by rewrite bool_decide_true.
Qed.

(** The loop on the heap only ever touches the cell of [kept]: what it
    leaves there is the loop run on that one object. *)
Lemma pruneHistory_heap_fold (h : Heap) (loc : nat) (o r : Obj)
    (ks : list string) :
  h !! loc = Some o →
  foldl (fun h' k =>
           alter (assignProp k
                    (default JUndef
                       (own (default newObj (Some loc ≫= fun l => h' !! l))
                          !! k)))
             (length h) h')
    (h ++ [r]) ks
  = h ++ [foldl (fun r' k => assignProp k (get (JObj (own o)) k) r') r ks].
Proof.
  intros Hloc. revert r. induction ks as [|k ks IH]; intros r; [done|].
  cbn [foldl]. rewrite <- IH. f_equal.
  cbn [mbind option_bind]. rewrite (lookup_app_l_Some _ _ _ _ Hloc).
  cbn [default get].
  rewrite <- (Nat.add_0_r (length h)) at 1. by rewrite alter_app_r.
Qed.


(** With it, the assignment of that key creates none, whatever the
    record: the own properties of the result are those of the other
    keys. *)
Lemma assign_fold_own (o r : Obj) (ks : list string) :
  NoDup ks →
  ("__proto__" ∈ ks → own r !! "__proto__" = None ∧ proto r = None) →
  own (foldl (fun r' k => assignProp k (get (JObj (own o)) k) r') r ks)
  = foldl (fun kept k => if String.eqb k "__proto__" then kept
                         else <[k := get (JObj (own o)) k]> kept)
      (own r) ks.
Proof.
  intros Hnd. revert r. induction Hnd as [|k ks Hk Hnd IH]; intros r Hr; [done|].
  cbn [foldl]. destruct (String.eqb_spec k "__proto__") as [->|Hne].
  - destruct Hr as [Hown Hproto]; [by left|].
    rewrite assignProp_proto by done.
    destruct (typeof_object _); by rewrite IH.
  - rewrite assignProp_other by done. rewrite IH; [done|].
    intros Hin. destruct Hr as [Hown Hproto]; [by right|].
    cbn [own proto]. by rewrite lookup_insert_ne.
Qed.

Lemma foldl_insert_skip_lookup (d : jsval) (ks : list string)
    (acc : gmap string jsval) (k : string) :
  foldl (fun kept k => if String.eqb k "__proto__" then kept
                       else <[k := get d k]> kept) acc ks !! k
  = if decide (k ∈ ks ∧ k ≠ "__proto__") then Some (get d k) else acc !! k.
Proof.
  revert acc. induction ks as [|k0 ks IH]; intros acc; cbn [foldl].
  - rewrite decide_False; [done|]. intros [Hin _]. by apply not_elem_of_nil in Hin.
  - rewrite IH. destruct (decide (k ∈ ks ∧ k ≠ "__proto__")) as [[Hin Hne]|Hnin].
    + rewrite decide_True; [done|]. split; [by right|done].
    + destruct (String.eqb_spec k0 "__proto__") as [->|Hne0].
      * rewrite decide_False; [done|].
        intros [[->|Hin]%elem_of_cons Hne]; [done|]. by apply Hnin.
      * destruct (decide (k = k0)) as [->|Hne].
        -- rewrite decide_True; [|split; [by left|done]].
           by rewrite lookup_insert_eq.
        -- rewrite lookup_insert_ne by done. rewrite decide_False; [done|].
           intros [[->|Hin]%elem_of_cons Hne']; [done|]. by apply Hnin.
Qed.

(** [pruneHistory] creates one object and changes no other: the argument
    and every other object of the heap are as they were. *)
Lemma pruneHistory_heap_pure (h : Heap) (loc : nat) (o : Obj) (keep : nat) :
  h !! loc = Some o →
  fst (pruneHistory_heap h (Some loc) keep) = length h
  ∧ ∃ r, snd (pruneHistory_heap h (Some loc) keep) = h ++ [r]
         ∧ r = foldl (fun r' k => assignProp k (get (JObj (own o)) k) r')
                 newObj (keptKeys (own o) keep).
Proof.
  intros Hloc. split; [done|]. eexists. split; [|reflexivity].
  unfold pruneHistory_heap. cbn [snd mbind option_bind]. rewrite Hloc.
  cbn [default]. by rewrite (pruneHistory_heap_fold h loc o newObj _ Hloc).
Qed.

(** Whatever the own keys of the argument, the own properties of the
    result are the retained entries other than [__proto__]: the record
    under that key is never copied. *)
Lemma pruneHistory_heap_own (h : Heap) (loc : nat) (o : Obj) (keep : nat) :
  h !! loc = Some o →
  ∃ r, snd (pruneHistory_heap h (Some loc) keep) = h ++ [r]
       ∧ own r = delete "__proto__"
                   (own_props (pruneHistory (JObj (own o)) keep)).
Proof.
  intros Hloc.
  destruct (pruneHistory_heap_pure h loc o keep Hloc) as (_ & r & Hr & ->).
  eexists. split; [exact Hr|].
  rewrite assign_fold_own.
  - apply map_eq. intros k. rewrite foldl_insert_skip_lookup.
    cbn [own newObj]. destruct (decide (k = "__proto__")) as [->|Hne].
    + rewrite lookup_delete_eq. rewrite decide_False; [done|]. by intros [_ ?].
    + rewrite lookup_delete_ne by done. rewrite pruneHistory_lookup.
      destruct (decide (k ∈ keptKeys (own o) keep)) as [Hin|Hnin].
      * rewrite decide_True by done.
        apply keptKeys_in_days in Hin as [v Hv]. cbn [get]. by rewrite Hv.
      * rewrite decide_False; [done|]. by intros [? _].
  - apply keptKeys_NoDup.
  - done.
Qed.

Lemma pruneHistory_heap_agrees (o : Obj) (keep : nat) :
  own o !! "__proto__" = None →
  JObj (own (default newObj
               (snd (pruneHistory_heap [o] (Some 0) keep)
                  !! fst (pruneHistory_heap [o] (Some 0) keep))))
  = pruneHistory (JObj (own o)) keep.
Proof.
  intros Hnone.
  destruct (pruneHistory_heap_own [o] 0 o keep) as (r & Hr & Hown); [done|].
  destruct (pruneHistory_heap_pure [o] 0 o keep) as (-> & _); [done|].
  rewrite Hr. change (JObj (own r) = pruneHistory (JObj (own o)) keep).
  rewrite Hown.
  rewrite delete_id; [done|].
  rewrite pruneHistory_lookup. case_decide; done.
Qed.


(** ** Trimming *)

Lemma strip_prefix_Some (p l r : list Ascii.ascii) :
  strip_prefix p l = Some r ↔ l = p ++ r.
Proof.
  revert l. induction p as [|a p IH]; intros l; cbn [strip_prefix app].
  - split; [by intros [= ->]|by intros ->].
  - destruct l as [|b l]; [done|].
    destruct (Ascii.eqb_spec a b) as [->|Hne].
    + rewrite IH. split; [by intros ->|by intros [= ->]].
    + split; [done|]. intros [= -> _]. done.
Qed.

Lemma first_stripped_Some (cs : list (list Ascii.ascii))
    (l r : list Ascii.ascii) :
  first_stripped cs l = Some r → ∃ c, c ∈ cs ∧ l = c ++ r.
Proof.
  induction cs as [|c cs IH]; cbn [first_stripped]; [done|].
  destruct (strip_prefix c l) as [r'|] eqn:E.
  - intros [= ->]. apply strip_prefix_Some in E. exists c. split; [by left|done].
  - intros Hr. destruct (IH Hr) as (c' & Hc' & ->). exists c'.
    split; [by right|done].
Qed.

Lemma first_stripped_None (cs : list (list Ascii.ascii)) (l : list Ascii.ascii) :
  first_stripped cs l = None ↔ ∀ c r, c ∈ cs → l ≠ c ++ r.
Proof.
  induction cs as [|c cs IH]; cbn [first_stripped].
  - split; [|done]. intros _ c r Hc. by apply elem_of_nil in Hc.
  - destruct (strip_prefix c l) as [r'|] eqn:E.
    + split; [done|]. intros Hall. apply strip_prefix_Some in E.
      exfalso. eapply Hall; [by left|exact E].
    + rewrite IH. split.
      * intros Hall c' r [->|Hc']%elem_of_cons; [|by apply Hall].
        intros Heq. apply strip_prefix_Some in Heq. congruence.
      * intros Hall c' r Hc'. apply Hall. by right.
Qed.

Lemma Blank_app (cs : list (list Ascii.ascii)) (p q : list Ascii.ascii) :
  Blank cs p → Blank cs q → Blank cs (p ++ q).
Proof.
  induction 1 as [|c p Hc Hp IH]; intros Hq; [done|].
  rewrite <- app_assoc. constructor; [done|by apply IH].
Qed.

Lemma Blank_one (cs : list (list Ascii.ascii)) (c : list Ascii.ascii) :
  c ∈ cs → Blank cs c.
Proof.
  intros Hc. rewrite <- (app_nil_r c). constructor; [done|constructor].
Qed.

Lemma Blank_reverse (cs : list (list Ascii.ascii)) (p : list Ascii.ascii) :
  Blank (reverse <$> cs) p → Blank cs (reverse p).
Proof.
  induction 1 as [|c p Hc Hp IH]; [constructor|].
  rewrite reverse_app. apply Blank_app; [done|].
  apply list_elem_of_fmap in Hc as (c0 & -> & Hc0).
  rewrite reverse_involutive. by apply Blank_one.
Qed.

(** What stripping returns: the list is a run of members of [cs] followed
    by the result, and the result starts with no member of [cs]. *)
Lemma strip_leading_go_spec (cs : list (list Ascii.ascii)) (fuel : nat)
    (l : list Ascii.ascii) :
  Forall (fun c => c ≠ []) cs → length l ≤ fuel →
  ∃ p, l = p ++ strip_leading_go cs fuel l
       ∧ Blank cs p
       ∧ first_stripped cs (strip_leading_go cs fuel l) = None.
Proof.
  intros Hcs. revert l. induction fuel as [|n IH]; intros l Hlen.
  - destruct l; [|cbn [length] in Hlen; lia]. exists []. cbn [strip_leading_go].
    split; [done|]. split; [constructor|].
    apply first_stripped_None. intros c r Hc Heq.
    symmetry in Heq. apply app_eq_nil in Heq as [-> _].
    by eapply Forall_forall in Hcs.
  - cbn [strip_leading_go]. destruct (first_stripped cs l) as [r|] eqn:E.
    + destruct (first_stripped_Some _ _ _ E) as (c & Hc & ->).
      assert (c ≠ []) as Hne by (by eapply Forall_forall in Hcs).
      destruct (IH r) as (p & Hp & Hb & Hnone).
      { rewrite length_app in Hlen. destruct c; [done|].
        cbn [length] in Hlen. lia. }
      exists (c ++ p). rewrite <- app_assoc, <- Hp.
      split; [done|]. split; [by constructor|done].
    + exists []. split; [done|]. split; [constructor|done].
Qed.

Lemma strip_leading_spec (cs : list (list Ascii.ascii)) (l : list Ascii.ascii) :
  Forall (fun c => c ≠ []) cs →
  ∃ p, l = p ++ strip_leading cs l
       ∧ Blank cs p
       ∧ first_stripped cs (strip_leading cs l) = None.
Proof. intros Hcs. by apply strip_leading_go_spec. Qed.

Lemma strip_leading_fixed (cs : list (list Ascii.ascii)) (l : list Ascii.ascii) :
  first_stripped cs l = None → strip_leading cs l = l.
Proof.
  intros Hnone. unfold strip_leading. destruct (length l); [done|].
  cbn [strip_leading_go]. by rewrite Hnone.
Qed.

Lemma ws_chars_nonempty : Forall (fun c => c ≠ []) ws_chars.
Proof. by repeat constructor. Qed.

Lemma ws_chars_reverse_nonempty : Forall (fun c => c ≠ []) (reverse <$> ws_chars).
Proof. by repeat constructor. Qed.

(** The two ends of a trimmed list: what [trim_start] and [trim_end] cut
    off is white space, and what is left neither starts nor ends with a
    white space character. *)
Lemma trim_list_spec (l : list Ascii.ascii) :
  ∃ p q, l = p ++ trim_end (trim_start l) ++ q
         ∧ WhiteSpace p ∧ WhiteSpace q
         ∧ first_stripped ws_chars (trim_end (trim_start l)) = None
         ∧ first_stripped (reverse <$> ws_chars)
             (reverse (trim_end (trim_start l))) = None.
Proof.
  unfold trim_start, trim_end.
  destruct (strip_leading_spec ws_chars l ws_chars_nonempty)
    as (p & Hp & Hbp & Hnp).
  set (t := strip_leading ws_chars l) in *.
  destruct (strip_leading_spec (reverse <$> ws_chars) (reverse t)
              ws_chars_reverse_nonempty) as (q' & Hq & Hbq & Hnq).
  set (u' := strip_leading (reverse <$> ws_chars) (reverse t)) in *.
  assert (t = reverse u' ++ reverse q') as Ht.
  { rewrite <- reverse_app, <- Hq. by rewrite reverse_involutive. }
  exists p, (reverse q'). split; [by rewrite <- Ht|].
  split; [done|]. split; [by apply Blank_reverse|].
  split; [|by rewrite reverse_involutive].
  apply first_stripped_None. intros c r Hc Heq.
  rewrite first_stripped_None in Hnp. apply (Hnp c (r ++ reverse q') Hc).
  by rewrite Ht, Heq, <- app_assoc.
Qed.

Lemma trim_list_idem (l : list Ascii.ascii) :
  trim_end (trim_start (trim_end (trim_start l))) = trim_end (trim_start l).
Proof.
  destruct (trim_list_spec l) as (p & q & _ & _ & _ & Hlead & Htrail).
  set (u := trim_end (trim_start l)) in *.
  unfold trim_start at 1. rewrite (strip_leading_fixed _ u Hlead).
  unfold trim_end at 1. rewrite (strip_leading_fixed _ (reverse u) Htrail).
  apply reverse_involutive.
Qed.

Lemma bytes_string (l : list Ascii.ascii) :
  bytes (String.string_of_list_ascii l) = l.
Proof. apply String.list_ascii_of_string_of_list_ascii. Qed.

Lemma string_bytes (s : string) : String.string_of_list_ascii (bytes s) = s.
Proof. apply String.string_of_list_ascii_of_string. Qed.

Lemma bytes_trim (s : string) : bytes (trim s) = trim_end (trim_start (bytes s)).
Proof. apply bytes_string. Qed.

Lemma trim_idem (s : string) : trim (trim s) = trim s.
Proof. unfold trim at 1. by rewrite bytes_trim, trim_list_idem. Qed.

Lemma bytes_inj (s t : string) : bytes s = bytes t → s = t.
Proof. intros Heq. by rewrite <- (string_bytes s), <- (string_bytes t), Heq. Qed.

(** The specification of [trim]: the result is the argument without a run
    of white space at either end, and has no white space character at
    either end. *)
Lemma trim_Trimmed (s : string) : Trimmed s (trim s).
Proof.
  destruct (trim_list_spec (bytes s)) as (p & q & Heq & Hp & Hq & Hl & Ht).
  exists p, q. rewrite bytes_trim.
  split; [done|]. split; [done|]. split; [done|]. split.
  - by apply first_stripped_None.
  - intros c r Hc Heq'. rewrite first_stripped_None in Ht.
    apply (Ht (reverse c) (reverse r)).
    + apply list_elem_of_fmap. by exists c.
    + by rewrite Heq', reverse_app.
Qed.

Lemma trim_empty_WhiteSpace (s : string) : trim s = "" → WhiteSpace (bytes s).
Proof.
  intros Hempty.
  destruct (trim_list_spec (bytes s)) as (p & q & Heq & Hp & Hq & _).
  rewrite <- bytes_trim, Hempty in Heq. cbn [bytes String.list_ascii_of_string app] in Heq.
  rewrite Heq. by apply Blank_app.
Qed.

Lemma filter_TrimKept (ss : list string) :
  TrimKept ss (List.filter (fun s => negb (String.eqb s "")) (trim <$> ss)).
Proof.
  induction ss as [|s ss IH]; [constructor|].
  cbn [fmap list_fmap List.filter].
  destruct (String.eqb (trim s) "") eqn:E; cbn [negb].
  - apply String.eqb_eq in E. constructor; [by apply trim_empty_WhiteSpace|done].
  - apply String.eqb_neq in E. constructor; [apply trim_Trimmed|done..].
Qed.

(** *** The specification fixes the result *)

Section Code.
Context (cs : list (list Ascii.ascii)).
Hypothesis Hok : Forall (fun c => code_ok c = true) cs.
Hypothesis Hpf : prefix_free cs = true.

Lemma code_shape (c : list Ascii.ascii) :
  c ∈ cs →
  ∃ b r, c = b :: r ∧ is_lead b = true ∧ Forall (fun x => is_lead x = false) r.
Proof.
  intros Hc. rewrite Forall_forall in Hok. specialize (Hok c Hc).
  destruct c as [|b r]; [done|]. cbn [code_ok] in Hok.
  apply andb_true_iff in Hok as [Hb Hr]. exists b, r.
  split; [done|]. split; [done|].
  rewrite forallb_forall in Hr. apply Forall_forall. intros x Hx.
  apply negb_true_iff, Hr. by apply list_elem_of_In.
Qed.

Lemma code_prefix (c c' k : list Ascii.ascii) :
  c ∈ cs → c' ∈ cs → c' = c ++ k → k = [].
Proof.
  intros Hc Hc' Heq. unfold prefix_free in Hpf.
  rewrite forallb_forall in Hpf.
  specialize (Hpf c (proj1 (list_elem_of_In _ _) Hc)).
  rewrite forallb_forall in Hpf.
  specialize (Hpf c' (proj1 (list_elem_of_In _ _) Hc')).
  apply strip_prefix_Some in Heq. rewrite Heq in Hpf. by destruct k.
Qed.

Lemma Blank_inv (l : list Ascii.ascii) :
  Blank cs l → l = [] ∨ ∃ c r, c ∈ cs ∧ Blank cs r ∧ l = c ++ r.
Proof. destruct 1 as [|c r Hc Hr]; [by left|right; by exists c, r]. Qed.

Lemma Blank_head (l : list Ascii.ascii) :
  Blank cs l → l ≠ [] → ∃ b r, l = b :: r ∧ is_lead b = true.
Proof.
  destruct 1 as [|c p Hc Hp]; [done|]. intros _.
  destruct (code_shape c Hc) as (b & r & -> & Hb & _).
  by exists b, (r ++ p).
Qed.

Lemma code_tail (c f k : list Ascii.ascii) :
  c ∈ cs → c = f ++ k → f ≠ [] → k ≠ [] →
  ∃ b r, k = b :: r ∧ is_lead b = false.
Proof.
  intros Hc Heq Hf Hk.
  destruct (code_shape c Hc) as (b0 & r0 & -> & _ & Hr0).
  destruct f as [|b1 f]; [done|]. injection Heq as -> ->.
  destruct k as [|b k]; [done|]. exists b, k. split; [done|].
  apply Forall_app in Hr0 as [_ Hk']. by apply Forall_cons in Hk' as [? _].
Qed.

Lemma lead_not_tail (b : Ascii.ascii) (r l : list Ascii.ascii) :
  is_lead b = false → Blank cs l → l = b :: r → False.
Proof.
  intros Hb Hl ->.
  destruct (Blank_head _ Hl) as (b' & r'' & [= <- <-] & Hb'); [done|].
  congruence.
Qed.

Lemma Blank_cancel_l (p k : list Ascii.ascii) :
  Blank cs p → Blank cs (p ++ k) → Blank cs k.
Proof.
  induction 1 as [|c p1 Hc Hp1 IH]; [done|].
  rewrite <- app_assoc. intros Hall.
  destruct (code_shape c Hc) as (b & r & Hcb & _).
  apply Blank_inv in Hall as [Hnil|(c' & r' & Hc' & Hr' & Heq)].
  { subst c. done. }
  apply List.app_eq_app in Heq as [k0 [[Hk0 Hrest]|[Hk0 Hrest]]].
  - apply (code_prefix c' c k0 Hc' Hc) in Hk0 as Hnil. subst k0.
    cbn [app] in Hrest. subst r'. by apply IH.
  - apply (code_prefix c c' k0 Hc Hc') in Hk0 as Hnil. subst k0.
    cbn [app] in Hrest. apply IH. by rewrite Hrest.
Qed.

Lemma Blank_cancel_r (f q : list Ascii.ascii) :
  Blank cs q → Blank cs (f ++ q) → Blank cs f.
Proof.
  intros Hq Hall. remember (f ++ q) as l eqn:Hl. revert f Hl.
  induction Hall as [|c p Hc Hp IH]; intros f Hl.
  - symmetry in Hl. apply app_nil in Hl as [-> _]. constructor.
  - apply List.app_eq_app in Hl as [k [[Hk Hrest]|[Hk Hrest]]].
    + destruct (decide (k = [])) as [->|Hkne].
      { rewrite app_nil_r in Hk. subst f. by apply Blank_one. }
      destruct (decide (f = [])) as [->|Hfne]; [constructor|].
      exfalso.
      destruct (code_tail c f k Hc Hk Hfne Hkne) as (b & r & -> & Hb).
      by eapply (lead_not_tail b (r ++ p) q).
    + subst f. constructor; [done|]. by apply IH.
Qed.

Lemma Blank_last (f : list Ascii.ascii) :
  Blank cs f → f ≠ [] → ∃ r c, c ∈ cs ∧ f = r ++ c.
Proof.
  induction 1 as [|c p Hc Hp IH]; [done|]. intros _.
  destruct (decide (p = [])) as [->|Hne].
  - exists [], c. by rewrite app_nil_r.
  - destruct (IH Hne) as (r & c' & Hc' & ->). exists (c ++ r), c'.
    by rewrite app_assoc.
Qed.

(** A text that starts with no member of [cs] keeps doing so when white
    space follows it. *)
Lemma starts_clean (t q c r : list Ascii.ascii) :
  (∀ c r, c ∈ cs → t ≠ c ++ r) → t ≠ [] → Blank cs q → c ∈ cs →
  t ++ q ≠ c ++ r.
Proof.
  intros Hclean Hne Hq Hc Heq.
  apply List.app_eq_app in Heq as [k [[Hk Hrest]|[Hk Hrest]]].
  - by apply (Hclean c k).
  - destruct (decide (k = [])) as [->|Hkne].
    { rewrite app_nil_r in Hk. subst c. apply (Hclean t []); [done|].
      by rewrite app_nil_r. }
    destruct (code_tail c t k Hc Hk Hne Hkne) as (b & r' & -> & Hb).
    by eapply (lead_not_tail b (r' ++ r) q).
Qed.

(** A list of white space only has an empty core. *)
Lemma core_of_blank (p t q : list Ascii.ascii) :
  Blank cs (p ++ t ++ q) → Blank cs p → Blank cs q →
  (∀ c r, c ∈ cs → t ≠ c ++ r) → t = [].
Proof.
  intros Hall Hp Hq Hclean.
  apply (Blank_cancel_l p) in Hall; [|done].
  destruct (decide (t = [])) as [|Hne]; [done|]. exfalso.
  apply Blank_inv in Hall as [Hnil|(c & r & Hc & _ & Heq)].
  - by apply app_nil in Hnil as [? _].
  - by apply (starts_clean t q c r).
Qed.

(** The core of a list between two runs of white space is determined. *)
Lemma core_unique (p t q p' t' q' : list Ascii.ascii) :
  p ++ t ++ q = p' ++ t' ++ q' →
  Blank cs p → Blank cs q → Blank cs p' → Blank cs q' →
  (∀ c r, c ∈ cs → t ≠ c ++ r) → (∀ c r, c ∈ cs → t ≠ r ++ c) →
  (∀ c r, c ∈ cs → t' ≠ c ++ r) → (∀ c r, c ∈ cs → t' ≠ r ++ c) →
  t = t'.
Proof.
  intros Heq Hp Hq Hp' Hq' Hl Hr Hl' Hr'.
  destruct (decide (t = [])) as [->|Hne].
  { symmetry. apply (core_of_blank p' t' q'); [|done..].
    rewrite <- Heq. by apply Blank_app. }
  destruct (decide (t' = [])) as [->|Hne'].
  { apply (core_of_blank p t q); [|done..].
    rewrite Heq. by apply Blank_app. }
  assert (t ++ q = t' ++ q') as Hcore.
  { apply List.app_eq_app in Heq as [k [[Hk Hrest]|[Hk Hrest]]].
    - assert (Blank cs k) as Hbk
        by (apply (Blank_cancel_l p'); [done|by rewrite <- Hk]).
      apply Blank_inv in Hbk as [->|(c & r & Hc & _ & ->)].
      + by rewrite Hrest.
      + exfalso. rewrite <- app_assoc in Hrest.
        by apply (starts_clean t' q' c (r ++ t ++ q)).
    - assert (Blank cs k) as Hbk
        by (apply (Blank_cancel_l p); [done|by rewrite <- Hk]).
      apply Blank_inv in Hbk as [->|(c & r & Hc & _ & ->)].
      + by rewrite Hrest.
      + exfalso. rewrite <- app_assoc in Hrest.
        by apply (starts_clean t q c (r ++ t' ++ q')). }
  apply List.app_eq_app in Hcore as [f [[Hf Hrest]|[Hf Hrest]]].
  - assert (Blank cs f) as Hbf
      by (apply (Blank_cancel_r f q); [done|by rewrite <- Hrest]).
    destruct (decide (f = [])) as [->|Hfne]; [by rewrite app_nil_r in Hf|].
    exfalso. destruct (Blank_last f Hbf Hfne) as (r & c & Hc & ->).
    apply (Hr c (t' ++ r) Hc). by rewrite Hf, app_assoc.
  - assert (Blank cs f) as Hbf
      by (apply (Blank_cancel_r f q'); [done|by rewrite <- Hrest]).
    destruct (decide (f = [])) as [->|Hfne]; [by rewrite app_nil_r in Hf|].
    exfalso. destruct (Blank_last f Hbf Hfne) as (r & c & Hc & ->).
    apply (Hr' c (t ++ r) Hc). by rewrite Hf, app_assoc.
Qed.

End Code.

Lemma ws_chars_code : Forall (fun c => code_ok c = true) ws_chars.
Proof. by repeat constructor. Qed.

Lemma ws_chars_prefix_free : prefix_free ws_chars = true.
Proof. by vm_compute. Qed.

(** Trimming is what [Trimmed] describes, and nothing else is. *)
Lemma Trimmed_unique (s t t' : string) : Trimmed s t → Trimmed s t' → t = t'.
Proof.
  intros (p & q & Heq & Hp & Hq & Hl & Hr) (p' & q' & Heq' & Hp' & Hq' & Hl' & Hr').
  apply bytes_inj.
  apply (core_unique ws_chars ws_chars_code ws_chars_prefix_free
           p (bytes t) q p' (bytes t') q'); try done.
  by rewrite <- Heq, <- Heq'.
Qed.

Lemma Trimmed_trim (s t : string) : Trimmed s t ↔ t = trim s.
Proof.
  split.
  - intros Ht. apply (Trimmed_unique s); [done|apply trim_Trimmed].
  - intros ->. apply trim_Trimmed.
Qed.

Lemma WhiteSpace_trim (s : string) : WhiteSpace (bytes s) ↔ trim s = "".
Proof.
  split; [|apply trim_empty_WhiteSpace]. intros Hs.
  symmetry. apply Trimmed_trim. exists (bytes s), [].
  cbn [bytes String.list_ascii_of_string app]. rewrite app_nil_r.
  split; [done|]. split; [done|]. split; [constructor|].
  split; intros c r Hc Heq.
  - symmetry in Heq. apply app_nil in Heq as [-> _].
    by destruct (code_shape ws_chars ws_chars_code [] Hc) as (? & ? & ? & _).
  - symmetry in Heq. apply app_nil in Heq as [_ ->].
    by destruct (code_shape ws_chars ws_chars_code [] Hc) as (? & ? & ? & _).
Qed.

(** The kept texts are those the code computes, and no others. *)
Lemma TrimKept_filter (ss ts : list string) :
  TrimKept ss ts
  ↔ ts = List.filter (fun s => negb (String.eqb s "")) (trim <$> ss).
Proof.
  split; [|intros ->; apply filter_TrimKept].
  induction 1 as [|s ss ts Hs _ IH|s t ss ts Ht Hne _ IH];
    cbn [fmap list_fmap List.filter].
  - done.
  - apply WhiteSpace_trim in Hs. rewrite Hs. by cbn [String.eqb negb].
  - apply Trimmed_trim in Ht. subst t.
    apply String.eqb_neq in Hne. rewrite Hne. cbn [negb]. by rewrite IH.
Qed.

(** ** The item normalizer *)

Lemma eqb_empty_false (s : string) : String.eqb s "" = false ↔ s ≠ "".
Proof. by rewrite String.eqb_neq. Qed.

Lemma truthy_JStr (s : string) : truthy (JStr s) = true ↔ s ≠ "".
Proof. cbn [truthy]. rewrite negb_true_iff. apply eqb_empty_false. Qed.

Lemma uid_text_nonempty (a b : string) : a +:+ "-" +:+ b ≠ "".
Proof. destruct a; done. Qed.

Section ItemFields.
Context (id text bucket done createdAt fromTemplate : jsval).
Let it := mkItem id text bucket done createdAt fromTemplate.

Lemma get_mkItem_id : get it "id" = id.
Proof. reflexivity. Qed.
Lemma get_mkItem_text : get it "text" = text.
Proof. reflexivity. Qed.
Lemma get_mkItem_bucket : get it "bucket" = bucket.
Proof. reflexivity. Qed.
Lemma get_mkItem_done : get it "done" = done.
Proof. reflexivity. Qed.
Lemma get_mkItem_createdAt : get it "createdAt" = createdAt.
Proof. reflexivity. Qed.
Lemma get_mkItem_fromTemplate : get it "fromTemplate" = fromTemplate.
Proof. reflexivity. Qed.
End ItemFields.

Arguments mkItem : simpl never.

Lemma filter_all_true {A} (f : A → bool) (l : list A) :
  Forall (fun x => f x = true) l → List.filter f l = l.
Proof.
  induction 1 as [|x l Hx _ IH]; [done|]. cbn [List.filter].
  by rewrite Hx, IH.
Qed.

Lemma Forall_filter_both {A} (P : A → Prop) (f : A → bool) (l : list A) :
  Forall P l → Forall (fun x => P x ∧ f x = true) (List.filter f l).
Proof.
  induction 1 as [|x l Hx _ IH]; [constructor|]. cbn [List.filter].
  destruct (f x) eqn:E; [by constructor|done].
Qed.

Lemma shapedItem_object (x : jsval) :
  shapedItem x → truthy x && typeof_object x = true.
Proof. by intros (? & ? & ? & ? & ? & ? & -> & _). Qed.

Lemma text_coercion (H : Host) (text : string) :
  to_str H (js_or (JStr text) (JStr "")) = text.
Proof.
  unfold js_or. cbn [truthy].
  destruct (String.eqb text "") eqn:E; [|done].
  apply String.eqb_eq in E. by subst.
Qed.

Section Normalizer.
Context (H : Host).

Lemma uid_truthy (w : World) : truthy (JStr (fst (uid H w))) = true.
Proof. apply truthy_JStr, uid_text_nonempty. Qed.

(** Whatever the input element, the callback builds a well-formed item. *)
Lemma normalizeItem_shaped (x : jsval) (w : World) :
  shapedItem (fst (normalizeItem H x w)).
Proof.
  unfold normalizeItem, bind, ret.
  set (text := trim (to_str H (js_or (get x "text") (JStr "")))).
  assert (trim text = text) as Htext by apply trim_idem.
  assert (truthy (js_or (get x "bucket") (JStr "morning")) = true) as Hb.
  { unfold js_or. by destruct (truthy (get x "bucket")) eqn:E. }
  destruct (truthy (get x "id")) eqn:Eid.
  - destruct (get x "createdAt") eqn:Ec; cbn [typeof_number Date_now fst];
      eexists _, _, _, _, _, _; (split; [reflexivity|done]).
  - pose proof (uid_truthy w) as Hu. destruct (uid H w) as [u w1].
    destruct (get x "createdAt") eqn:Ec; cbn [typeof_number Date_now fst];
      eexists _, _, _, _, _, _; (split; [reflexivity|done]).
Qed.

(** A well-formed item passes through the callback unchanged, and no id is
    drawn nor the clock read. *)
Lemma normalizeItem_fix (x : jsval) (w : World) :
  shapedItem x → normalizeItem H x w = (x, w).
Proof.
  intros (id & text & bucket & done & createdAt & ft & -> & Hid & Htext & Hb).
  unfold normalizeItem, bind, ret.
  rewrite get_mkItem_id, get_mkItem_text, get_mkItem_bucket, get_mkItem_done,
    get_mkItem_createdAt, get_mkItem_fromTemplate.
  rewrite Hid, text_coercion, Htext. unfold js_or. rewrite Hb.
  cbn [typeof_number truthy]. done.
Qed.

Lemma mapM_normalizeItem_shaped (xs : list jsval) (w : World) :
  Forall shapedItem (fst (mapM (normalizeItem H) xs w)).
Proof.
  revert w. induction xs as [|x xs IH]; intros w; [constructor|].
  cbn [mapM]. unfold bind at 1.
  pose proof (normalizeItem_shaped x w) as Hx.
  destruct (normalizeItem H x w) as [y w1]. unfold bind at 1.
  specialize (IH w1). destruct (mapM (normalizeItem H) xs w1) as [ys w2].
  by constructor.
Qed.

Lemma mapM_normalizeItem_fix (l : list jsval) (w : World) :
  Forall shapedItem l → mapM (normalizeItem H) l w = (l, w).
Proof.
  induction 1 as [|x l Hx _ IH]; [done|].
  cbn [mapM]. unfold bind at 1. rewrite normalizeItem_fix by done.
  unfold bind at 1. by rewrite IH.
Qed.

(** The normalizer returns an array of normalized items. *)
Lemma normalizeDayItems_normal (L : jsval) (w : World) :
  ∃ l, fst (normalizeDayItems H L w) = JArr l ∧ Forall normalItem l.
Proof.
  destruct L as [| | | | |l0|]; try (by exists []).
  cbn [normalizeDayItems]. unfold bind, ret.
  pose proof (mapM_normalizeItem_shaped
    (List.filter (fun x => truthy x && typeof_object x) l0) w) as Hs.
  destruct (mapM _ _ w) as [ys w1]. cbn [fst] in *.
  eexists. split; [reflexivity|]. by apply Forall_filter_both.
Qed.

(** An array of normalized items is a fixed point of the normalizer. *)
Lemma normalizeDayItems_fix (l : list jsval) (w : World) :
  Forall normalItem l → normalizeDayItems H (JArr l) w = (JArr l, w).
Proof.
  intros Hl. cbn [normalizeDayItems]. unfold bind, ret.
  rewrite filter_all_true.
  2: { eapply Forall_impl; [exact Hl|]. intros x [Hx _].
       by apply shapedItem_object. }
  rewrite mapM_normalizeItem_fix.
  2: { eapply Forall_impl; [exact Hl|]. by intros x [Hx _]. }
  rewrite filter_all_true; [done|].
  eapply Forall_impl; [exact Hl|]. by intros x [_ Hx].
Qed.

(** C6: normalizing the result of a normalization returns that result
    again, item for item and field for field (ids and time stamps
    included), and the second pass draws no id and reads no clock: the
    world it runs in is returned unchanged. *)
Theorem normalizeDayItems_idempotent (L : jsval) (w w' : World) :
  normalizeDayItems H (fst (normalizeDayItems H L w)) w'
  = (fst (normalizeDayItems H L w), w').
Proof.
  destruct (normalizeDayItems_normal L w) as (l & -> & Hl).
  by apply normalizeDayItems_fix.
Qed.

End Normalizer.

(** ** The template engine *)

Section TemplateEngine.
Context (H : Host).

Lemma afterUids_0 (w : World) : afterUids 0 w = w.
Proof. destruct w. unfold afterUids. simpl. f_equal; lia. Qed.

Lemma afterUids_S (n : nat) (w : World) :
  afterUids n (afterUids 1 w) = afterUids (S n) w.
Proof. unfold afterUids. simpl. f_equal; lia. Qed.

Lemma afterUids_add (n m : nat) (w : World) :
  afterUids m (afterUids n w) = afterUids (n + m) w.
Proof. unfold afterUids. simpl. f_equal; lia. Qed.

Lemma uid_eq (w : World) :
  uid H w = (radix36 H (clock H (ticks w)) +:+ "-" +:+ random36 H (draws w),
             afterUids 1 w).
Proof.
  unfold uid, bind, ret, Date_now, Math_random36, afterUids. simpl.
  do 2 f_equal; lia.
Qed.

Lemma itemAt_shift now t0 d0 b i text :
  itemAt H now t0 d0 b (S i) text = itemAt H now (S t0) (S d0) b i text.
Proof. unfold itemAt. by rewrite <- !Nat.add_succ_comm. Qed.

Lemma templateItem_eq (now : Z) (b : string) (t : jsval) (w : World) :
  let text := trim (to_str H (js_or t (JStr ""))) in
  templateItem H now b t w
  = if String.eqb text "" then (None, w)
    else (Some (itemAt H now (ticks w) (draws w) b 0 text), afterUids 1 w).
Proof.
  intros text. unfold templateItem. fold text.
  destruct (String.eqb text ""); [done|].
  unfold bind, ret. rewrite uid_eq. unfold itemAt. by rewrite !Nat.add_0_r.
Qed.

Lemma mapM_templateItem (now : Z) (b : string) (l : list jsval) (w : World) :
  let texts := List.filter (fun s => negb (String.eqb s ""))
                 ((fun t => trim (to_str H (js_or t (JStr "")))) <$> l) in
  ∃ opts, mapM (templateItem H now b) l w = (opts, afterUids (length texts) w)
          ∧ omap id opts = imap (itemAt H now (ticks w) (draws w) b) texts.
Proof.
  revert w. induction l as [|t l IH]; intros w texts.
  - exists []. subst texts. simpl. by rewrite afterUids_0.
  - subst texts. cbn [mapM fmap list_fmap List.filter]. unfold bind at 1.
    rewrite templateItem_eq.
    destruct (String.eqb (trim (to_str H (js_or t (JStr "")))) "") eqn:E;
      cbn [negb].
    + unfold bind at 1.
      destruct (IH w) as (opts & -> & Hopts).
      exists (None :: opts). split; [done|]. by cbn [omap].
    + unfold bind at 1.
      destruct (IH (afterUids 1 w)) as (opts & -> & Hopts).
      eexists (Some _ :: opts). split.
      * unfold ret. cbn [length]. by rewrite afterUids_S.
      * change (omap id (Some ?x :: opts)) with (x :: omap id opts).
        rewrite Hopts. cbn [imap]. f_equal.
        apply imap_ext. intros i s _. simpl.
        rewrite itemAt_shift. unfold afterUids, itemAt. simpl.
        by rewrite !Nat.add_1_r.
Qed.

Lemma bucketItems_eq (now : Z) (templates : jsval) (b : string) (w : World) :
  bucketItems H now templates b w
  = (imap (itemAt H now (ticks w) (draws w) b) (templateTexts H templates b),
     afterUids (length (templateTexts H templates b)) w).
Proof.
  unfold bucketItems, templateTexts. unfold bind, ret.
  destruct (mapM_templateItem now b
              (match get templates b with JArr l => l | _ => [] end) w)
    as (opts & -> & Hopts).
  by rewrite Hopts.
Qed.

Lemma itemAt_cong now t0 t1 d0 d1 b i j text :
  t0 + i = t1 + j → d0 + i = d1 + j →
  itemAt H now t0 d0 b i text = itemAt H now t1 d1 b j text.
Proof. intros Ht Hd. unfold itemAt. by rewrite Ht, Hd. Qed.

(** The expansion in closed form: the [i]-th pair becomes the item whose id
    comes from the [i]-th call of [uid()] after the clock was read once. *)
Lemma makeItemsFromTemplates_eq (templates : jsval) (w : World) :
  makeItemsFromTemplates H templates w
  = (JArr (imap (fun i bt => itemAt H (clock H (ticks w)) (S (ticks w))
                               (draws w) bt.1 i bt.2)
             (expansionTexts H templates)),
     afterUids (length (expansionTexts H templates))
       {| ticks := S (ticks w); draws := draws w;
          writes := writes w; storage := storage w |}).
Proof.
  unfold makeItemsFromTemplates, expansionTexts, BUCKETS.
  unfold bind at 1. cbn [Date_now].
  set (w0 := {| ticks := S (ticks w); draws := draws w;
                writes := writes w; storage := storage w |}).
  set (now := clock H (ticks w)).
  set (tm := templateTexts H templates "morning").
  set (tn := templateTexts H templates "noon").
  set (te := templateTexts H templates "evening").
  cbn [mapM]. unfold bind, ret. rewrite !bucketItems_eq.
  fold tm tn te. cbn [concat]. rewrite app_nil_r.
  rewrite !afterUids_add, !length_app, !length_fmap, Nat.add_assoc.
  f_equal. f_equal.
  rewrite !imap_app, !imap_fmap, !length_fmap.
  apply (f_equal2 app); [|apply (f_equal2 app)];
    apply imap_ext; intros i s _; unfold compose; cbn [fst snd];
    apply itemAt_cong; unfold afterUids, w0; cbn [ticks draws]; lia.
Qed.

Lemma to_str_JStr (ss : list string) : to_str H <$> (JStr <$> ss) = ss.
Proof. induction ss as [|s ss IH]; [done|]. cbn [fmap list_fmap] in *. by rewrite IH. Qed.

(** Over template strings (and falsy entries, which count as the empty
    string) the texts of a bucket are fixed by the white space
    specification alone. *)
Lemma templateTexts_strings (templates : jsval) (b : string) (ss : list string) :
  (fun t => js_or t (JStr "")) <$> arrayItems (get templates b) = JStr <$> ss →
  templateTexts H templates b
  = List.filter (fun s => negb (String.eqb s "")) (trim <$> ss).
Proof.
  intros Hss. unfold templateTexts. fold (arrayItems (get templates b)).
  f_equal. rewrite <- (to_str_JStr ss), <- Hss, <- !list_fmap_compose.
  done.
Qed.

(** C7: for every templates value whose three lists hold strings (a falsy
    entry counts as the empty string; a bucket that is no array as the
    empty list), the expansion reads the clock once and then emits, in
    this order, one item per morning string, per noon string and per
    evening string (each list in stored order) that is not white space
    only, with that string cut of the white space at its two ends as
    text; every item has [done = false], [fromTemplate = true] and the one
    clock reading as [createdAt]; the [i]-th item carries the id made by
    the [i]-th call of [uid()] of the expansion, so each item has an id
    generated for it alone. *)
Theorem makeItemsFromTemplates_order (templates : jsval)
    (sm sn se : list string) (w : World) :
  (fun t => js_or t (JStr "")) <$> arrayItems (get templates "morning")
    = JStr <$> sm →
  (fun t => js_or t (JStr "")) <$> arrayItems (get templates "noon")
    = JStr <$> sn →
  (fun t => js_or t (JStr "")) <$> arrayItems (get templates "evening")
    = JStr <$> se →
  ∃ its w' tm tn te,
    makeItemsFromTemplates H templates w = (JArr its, w')
    ∧ TrimKept sm tm ∧ TrimKept sn tn ∧ TrimKept se te
    ∧ (fun x => (get x "bucket", get x "text")) <$> its
      = (fun bt => (JStr bt.1, JStr bt.2)) <$>
          ((pair "morning" <$> tm) ++ (pair "noon" <$> tn)
           ++ (pair "evening" <$> te))%list
    ∧ Forall (fun x => get x "done" = JBool false
                       ∧ get x "fromTemplate" = JBool true
                       ∧ get x "createdAt" = JNum (clock H (ticks w))) its
    ∧ (∀ i x, its !! i = Some x →
         get x "id" = JStr (radix36 H (clock H (ticks w + 1 + i)) +:+ "-"
                            +:+ random36 H (draws w + i)))
    ∧ draws w' = draws w + length its
    ∧ ticks w' = ticks w + 1 + length its.
Proof.
  intros Hm Hn He.
  eexists _, _, (templateTexts H templates "morning"),
    (templateTexts H templates "noon"), (templateTexts H templates "evening").
  split; [apply makeItemsFromTemplates_eq|].
  fold (expansionTexts H templates).
  split; [rewrite (templateTexts_strings _ _ _ Hm); apply filter_TrimKept|].
  split; [rewrite (templateTexts_strings _ _ _ Hn); apply filter_TrimKept|].
  split; [rewrite (templateTexts_strings _ _ _ He); apply filter_TrimKept|].
  split; [|split; [|split; [|split]]].
  - rewrite fmap_imap, <- imap_const. by apply imap_ext.
  - apply Forall_lookup. intros i x Hx.
    apply list_lookup_imap_Some in Hx as (bt & _ & ->). done.
  - intros i x Hx.
    apply list_lookup_imap_Some in Hx as (bt & _ & ->).
    unfold itemAt. rewrite get_mkItem_id.
    by replace (ticks w + 1 + i) with (S (ticks w) + i) by lia.
  - rewrite length_imap. done.
  - rewrite length_imap. cbn [afterUids ticks]. lia.
Qed.

End TemplateEngine.

(** ** The bucket of a normalized item *)

Section Bucket.
Context (H : Host).

Lemma normalizeItem_get_bucket (x : jsval) (w : World) :
  get (fst (normalizeItem H x w)) "bucket"
  = if truthy (get x "bucket") then get x "bucket" else JStr "morning".
Proof.
  unfold normalizeItem, bind, ret.
  destruct (truthy (get x "id")); [|destruct (uid H w) as [u w1]];
    destruct (typeof_number (get x "createdAt")); cbn [Date_now fst];
    by rewrite get_mkItem_bucket.
Qed.

(** C8 (as the code has it): the callback of the normalizer gives the item
    the input's [bucket] whenever that value is truthy, whether or not it
    names one of the three buckets, and [morning] when it is absent or
    falsy; the same holds of what the normalizer returns for a one-element
    array. *)
Theorem normalizeItem_bucket (x : jsval) (w : World) :
  get (fst (normalizeItem H x w)) "bucket"
  = (if truthy (get x "bucket") then get x "bucket" else JStr "morning")
  ∧ Forall (fun y => get y "bucket"
                     = if truthy (get x "bucket") then get x "bucket"
                       else JStr "morning")
      (arrayItems (fst (normalizeDayItems H (JArr [x]) w))).
Proof.
  split; [apply normalizeItem_get_bucket|].
  cbn [normalizeDayItems List.filter].
  destruct (truthy x && typeof_object x); cbn [mapM]; unfold bind, ret.
  - pose proof (normalizeItem_get_bucket x w) as Hb.
    destruct (normalizeItem H x w) as [y w1]. cbn [fst arrayItems List.filter] in *.
    destruct (truthy (get y "text")); by repeat constructor.
  - constructor.
Qed.

End Bucket.

(** ** The store codec *)

Lemma get_mkStore_version v t d : get (mkStore v t d) "version" = v.
Proof. reflexivity. Qed.
Lemma get_mkStore_templates v t d : get (mkStore v t d) "templates" = t.
Proof. reflexivity. Qed.
Lemma get_mkStore_days v t d : get (mkStore v t d) "days" = d.
Proof. reflexivity. Qed.

Section Codec.
Context (H : Host).

(** C5 (as the code has it): a non-empty blob that parses to an object
    whose [dateKey] is a non-empty string and whose [items] is an array
    loads as the version-2 document with three empty template lists and a
    days map of exactly one entry, [dateKey] mapped to the items array as
    it was parsed. *)
Theorem loadStore_legacy (raw : string) (m : gmap string jsval)
    (k : string) (l : list jsval) :
  raw ≠ "" →
  JSON_parse H raw = Some (JObj m) →
  m !! "dateKey" = Some (JStr k) →
  k ≠ "" →
  m !! "items" = Some (JArr l) →
  loadStore H (Some raw) = mkStore (JNum 2) emptyTemplates (JObj {[ k := JArr l ]})
  ∧ get (loadStore H (Some raw)) "version" = JNum 2
  ∧ Forall (fun b => get (get (loadStore H (Some raw)) "templates") b = JArr [])
      BUCKETS
  ∧ size (own_props (get (loadStore H (Some raw)) "days")) = 1
  ∧ get (get (loadStore H (Some raw)) "days") k = JArr l.
Proof.
  intros Hraw Hparse Hk Hne Hitems.
  assert (loadStore H (Some raw)
          = mkStore (JNum 2) emptyTemplates (JObj {[ k := JArr l ]})) as ->.
  { unfold loadStore. destruct raw as [|c raw]; [done|].
    unfold safeJSONParse. rewrite Hparse. cbn [truthy typeof_object negb orb get].
    rewrite Hk, Hitems. cbn [default isArray to_str].
    unfold id. apply truthy_JStr in Hne. rewrite Hne. cbn [andb].
    by rewrite insert_empty. }
  split; [done|]. rewrite get_mkStore_version, get_mkStore_templates,
    get_mkStore_days.
  split; [done|]. split; [by repeat constructor|].
  cbn [own_props get]. split; [apply map_size_singleton|].
  by rewrite lookup_singleton_eq.
Qed.

(** C9 (as the code has it): for a non-empty blob that does not parse, or
    that parses to something that is not an object (null, a boolean, a
    number or a string), [loadStore] returns null and the initializer of
    the store substitutes the version-2 document with three empty template
    lists and no days. *)
Theorem loadStore_corrupt (raw : string) :
  raw ≠ "" →
  (JSON_parse H raw = None
   ∨ ∃ v, JSON_parse H raw = Some v ∧ (v = JNull ∨ typeof_object v = false)) →
  loadStore H (Some raw) = JNull
  ∧ initialStore H (Some raw) = mkStore (JNum 2) emptyTemplates (JObj ∅).
Proof.
  intros Hraw Hparse.
  assert (loadStore H (Some raw) = JNull) as Hload.
  { unfold loadStore. destruct raw as [|c raw]; [done|].
    unfold safeJSONParse.
    destruct Hparse as [->|(v & -> & [->|Hv])]; [done..|].
    rewrite Hv. cbn [negb]. by rewrite orb_true_r. }
  split; [done|]. unfold initialStore. by rewrite Hload.
Qed.

End Codec.

(** ** Template removal *)

Lemma splice1_beyond (idx : Z) (l : list jsval) :
  (Z.of_nat (length l) ≤ idx)%Z → splice1 idx l = l.
Proof.
  intros Hge. unfold splice1.
  destruct (idx <? 0)%Z eqn:E; [lia|].
  rewrite Z.min_r by lia. rewrite Z.sub_diag, Z.min_r, Z.add_0_r by lia.
  rewrite Nat2Z.id. apply take_drop.
Qed.

Lemma splice1_negative (idx : Z) (l : list jsval) :
  (idx < 0)%Z →
  splice1 idx l = delete (Z.to_nat (Z.max (Z.of_nat (length l) + idx) 0)) l.
Proof.
  intros Hneg. unfold splice1.
  destruct (idx <? 0)%Z eqn:E; [|lia].
  set (start := Z.max (Z.of_nat (length l) + idx) 0).
  destruct l as [|x l].
  { rewrite take_nil, drop_nil. by destruct (Z.to_nat start). }
  assert (0 ≤ start < Z.of_nat (length (x :: l)))%Z as Hstart.
  { subst start. cbn [length] in *. lia. }
  rewrite Z.min_l by lia. rewrite Z2Nat.inj_add by lia.
  rewrite delete_take_drop. change (Z.to_nat 1) with 1.
  by rewrite Nat.add_1_r.
Qed.

Section TemplateRemoval.
Context (H : Host).

(** C10 (as the code has it): when the bucket holds an array (or nothing,
    read as the empty array) the removal does not throw and stores the
    spliced copy; an index at or beyond the length leaves the list as it
    was; a negative index counts from the end of the list and removes the
    element it reaches (the first one when it reaches before the start). *)
Theorem removeTemplate_out_of_range (prev : jsval) (bucketId : string)
    (idx : Z) (l : list jsval) (w : World) :
  js_or (get (get prev "templates") bucketId) (JArr []) = JArr l →
  ∃ next w',
    removeTemplateUpdater H bucketId idx prev w = (Some next, w')
    ∧ get (get next "templates") bucketId = JArr (splice1 idx l)
    ∧ ((Z.of_nat (length l) ≤ idx)%Z →
         get (get next "templates") bucketId = JArr l)
    ∧ ((idx < 0)%Z →
         get (get next "templates") bucketId
         = JArr (delete (Z.to_nat (Z.max (Z.of_nat (length l) + idx) 0)) l)).
Proof.
  intros Hl. unfold removeTemplateUpdater. rewrite Hl. cbn [spread_array].
  unfold bind, ret. cbn [saveStore]. eexists _, _. split; [reflexivity|].
  assert (∀ t m' (v : jsval),
            get (get (JObj (<["templates" := JObj (<[bucketId := v]> t)]> m'))
                   "templates") bucketId = v) as Hget.
  { intros t m' v. cbn [get]. rewrite lookup_insert_eq. cbn [default].
    unfold id. cbn [get]. by rewrite lookup_insert_eq. }
  rewrite Hget. split; [done|]. split.
  - intros Hge. by rewrite splice1_beyond.
  - intros Hneg. by rewrite splice1_negative.
Qed.

End TemplateRemoval.

(** ** The day controller *)

Section DayController.
Context (H : Host).

Lemma persistItemsUpdater_present (m days : gmap string jsval) (k : string)
    (its : jsval) (w : World) :
  m !! "days" = Some (JObj days) → is_Some (days !! k) → (size days ≤ 7)%nat →
  fst (persistItemsUpdater H k its (JObj m) w)
  = JObj (<["days" := JObj (<[k := its]> days)]> m).
Proof.
  intros Hdays Hk Hsize. unfold persistItemsUpdater, bind, ret.
  cbn [saveStore fst get own_props]. rewrite Hdays. cbn [default].
  unfold id, js_or. cbn [truthy own_props].
  rewrite pruneHistory_small; [done|].
  destruct Hk as [v Hv]. by rewrite map_size_insert_Some.
Qed.

Lemma viewHistoryDay_eq (a : App) (k : string)
    (m days : gmap string jsval) (v : jsval) (w : World) :
  store a = JObj m →
  m !! "days" = Some (JObj days) →
  days !! k = Some v →
  (size days ≤ 7)%nat →
  dateKey a ≠ k →
  fst (viewHistoryDay H k a w)
  = {| tab := TabToday;
       store := JObj (<["days" := JObj (<[k := fst (normalizeDayItems H v w)]>
                                          days)]> m);
       dateKey := k;
       items := fst (normalizeDayItems H v w) |}.
Proof.
  intros Hstore Hdays Hk Hsize Hne.
  unfold viewHistoryDay. rewrite decide_False by done.
  unfold afterDateKeyChange, syncItemsEffect, persistItemsEffect, setStore.
  unfold bind, ret. cbn [openHistoryDay store dateKey items tab].
  rewrite Hstore. cbn [get]. rewrite Hdays. cbn [default]. unfold id.
  cbn [get]. rewrite Hk. cbn [default]. unfold id.
  destruct (normalizeDayItems H v w) as [its w1].
  cbn [store dateKey items tab fst].
  pose proof (persistItemsUpdater_present m days k its w1 Hdays
                (ex_intro _ v Hk) Hsize) as Hp.
  destruct (persistItemsUpdater H k its (JObj m) w1) as [next w2].
  cbn [fst] in *. by subst next.
Qed.

(** C2 (as the code has it): [openHistoryDay k] sets the active key to [k]
    and touches neither the store nor the items, so it seeds nothing.  The
    effects that follow the change of key write the normalized form of the
    stored record of [k] back under [k] and leave every other day and every
    other field of the document as they were; when the stored record
    already is an array of normalized items the document is unchanged. *)
Theorem viewHistoryDay_store (a : App) (k : string)
    (m days : gmap string jsval) (v : jsval) (w : World) :
  store a = JObj m →
  m !! "days" = Some (JObj days) →
  days !! k = Some v →
  (size days ≤ 7)%nat →
  dateKey a ≠ k →
  (dateKey (openHistoryDay k a) = k
   ∧ store (openHistoryDay k a) = store a
   ∧ items (openHistoryDay k a) = items a)
  ∧ dateKey (fst (viewHistoryDay H k a w)) = k
  ∧ store (fst (viewHistoryDay H k a w))
    = JObj (<["days" := JObj (<[k := fst (normalizeDayItems H v w)]> days)]> m)
  ∧ (∀ l, v = JArr l → Forall normalItem l →
       store (fst (viewHistoryDay H k a w)) = store a).
Proof.
  intros Hstore Hdays Hk Hsize Hne. split; [done|].
  rewrite (viewHistoryDay_eq a k m days v w) by done.
  cbn [dateKey store]. split; [done|]. split; [done|].
  intros l -> Hl. rewrite normalizeDayItems_fix by done. cbn [fst].
  rewrite Hstore, (insert_id days k) by done. by rewrite insert_id.
Qed.

(** The interval callback moves the view to [tk] whenever the active key is
    another one. *)
Lemma rolloverTick_switches (tk : string) (a : App) (w : World) :
  dateKey a ≠ tk →
  dateKey (fst (rolloverTick H tk a w)) = tk
  ∧ tab (fst (rolloverTick H tk a w)) = TabToday.
Proof.
  intros Hne. unfold rolloverTick. rewrite decide_True by done.
  unfold bind, ret. by destruct (setStore _ a w).
Qed.

End DayController.

(** ** Persisted snapshots *)

Lemma prunedStore_size (s : jsval) :
  prunedStore s → (size (own_props (get s "days")) ≤ 7)%nat.
Proof. intros [cand ->]. rewrite pruneHistory_size. lia. Qed.

Lemma get_days_own_props (v : jsval) :
  get v "days" = default JUndef (own_props v !! "days").
Proof. by destruct v. Qed.

Section Snapshots.
Context (H : Host).

Lemma makeItemsFromTemplates_storage (templates : jsval) (w : World) :
  writes (snd (makeItemsFromTemplates H templates w)) = writes w
  ∧ storage (snd (makeItemsFromTemplates H templates w)) = storage w.
Proof. by rewrite makeItemsFromTemplates_eq. Qed.

Lemma saveStore_wrote (next : jsval) (w : World) :
  wrote next w (snd (saveStore H next w)).
Proof.
  unfold wrote, saveStore. cbn [snd storage].
  destruct (setItem_ok H (writes w)); auto.
Qed.

Lemma seedDayUpdater_pruned (tk : string) (prev : jsval) (w : World) :
  prunedStore (fst (seedDayUpdater H tk prev w))
  ∧ wrote (fst (seedDayUpdater H tk prev w)) w (snd (seedDayUpdater H tk prev w)).
Proof.
  unfold seedDayUpdater.
  set (days0 := own_props (js_or (get prev "days") (JObj ∅))).
  set (next0 := <["days" := JObj days0]> (own_props prev)).
  destruct (truthy (get (JObj days0) tk)); cbn [negb]; unfold bind, ret.
  - split.
    + exists days0. cbn [fst saveStore get]. by rewrite lookup_insert_eq.
    + apply saveStore_wrote.
  - pose proof (makeItemsFromTemplates_storage (get (JObj next0) "templates") w)
      as [Hw Hs].
    destruct (makeItemsFromTemplates H (get (JObj next0) "templates") w)
      as [its w1]. cbn [snd] in Hw, Hs.
    split.
    + exists (<[tk := its]> days0). cbn [fst saveStore get].
      by rewrite lookup_insert_eq.
    + unfold wrote. cbn [fst snd saveStore storage]. rewrite Hs.
      destruct (setItem_ok H (writes w1)); auto.
Qed.

Lemma persistItemsUpdater_pruned (k : string) (its prev : jsval) (w : World) :
  prunedStore (fst (persistItemsUpdater H k its prev w))
  ∧ wrote (fst (persistItemsUpdater H k its prev w)) w
      (snd (persistItemsUpdater H k its prev w)).
Proof.
  unfold persistItemsUpdater, bind, ret. split.
  - eexists. cbn [fst saveStore get]. by rewrite lookup_insert_eq.
  - apply saveStore_wrote.
Qed.

Lemma templates_update_days (prev t : jsval) :
  get (JObj (<["templates" := t]> (own_props prev))) "days" = get prev "days".
Proof.
  cbn [get]. rewrite lookup_insert_ne by done.
  by rewrite get_days_own_props.
Qed.

Lemma addTemplateUpdater_days (b trimmed : string) (prev : jsval) (w : World) :
  match addTemplateUpdater H b trimmed prev w with
  | (Some next, w') => get next "days" = get prev "days" ∧ wrote next w w'
  | (None, w') => w' = w
  end.
Proof.
  unfold addTemplateUpdater.
  destruct (spread_array _) as [old|]; [|done].
  unfold bind, ret. cbn [saveStore]. split.
  - apply templates_update_days.
  - apply (saveStore_wrote _ w).
Qed.

Lemma removeTemplateUpdater_days (b : string) (idx : Z) (prev : jsval)
    (w : World) :
  match removeTemplateUpdater H b idx prev w with
  | (Some next, w') => get next "days" = get prev "days" ∧ wrote next w w'
  | (None, w') => w' = w
  end.
Proof.
  unfold removeTemplateUpdater.
  destruct (spread_array _) as [copy|]; [|done].
  unfold bind, ret. cbn [saveStore]. split.
  - apply templates_update_days.
  - apply (saveStore_wrote _ w).
Qed.

(** Every operation maps a pruned document to a pruned one, and what it
    writes is the document it returns. *)
Lemma applyOp_pruned (op : StoreOp) (s : jsval) (w : World) :
  prunedStore s →
  match applyOp H op s w with
  | (Some s', w') => prunedStore s' ∧ (w' = w ∨ wrote s' w w')
  | (None, w') => w' = w
  end.
Proof.
  intros Hs. destruct op as [tk|k its|b text|b idx]; cbn [applyOp].
  - unfold bind, ret. pose proof (seedDayUpdater_pruned tk s w) as [? ?].
    destruct (seedDayUpdater H tk s w). auto.
  - unfold bind, ret. pose proof (persistItemsUpdater_pruned k its s w) as [? ?].
    destruct (persistItemsUpdater H k its s w). auto.
  - destruct (String.eqb (trim text) ""); [unfold ret; auto|].
    pose proof (addTemplateUpdater_days b (trim text) s w) as Ha.
    destruct (addTemplateUpdater H b (trim text) s w) as [[next|] w']; [|done].
    destruct Ha as [Hd ?]. split; [|auto].
    destruct Hs as [cand Hc]. exists cand. by rewrite Hd.
  - pose proof (removeTemplateUpdater_days b idx s w) as Ha.
    destruct (removeTemplateUpdater H b idx s w) as [[next|] w']; [|done].
    destruct Ha as [Hd ?]. split; [|auto].
    destruct Hs as [cand Hc]. exists cand. by rewrite Hd.
Qed.

Lemma runOps_pruned (ops : list StoreOp) (s : jsval) (w : World) :
  prunedStore s →
  ∃ new, storage (snd (runOps H ops s w)) = new ++ storage w
         ∧ Forall prunedStore new.
Proof.
  revert s w. induction ops as [|op ops IH]; intros s w Hs.
  - by exists [].
  - cbn [runOps]. unfold bind at 1.
    pose proof (applyOp_pruned op s w Hs) as Hop.
    destruct (applyOp H op s w) as [[s'|] w'].
    + destruct Hop as [Hs' Hw]. destruct (IH s' w' Hs') as (new & -> & Hnew).
      destruct Hw as [->|[->| ->]].
      * by exists new.
      * by exists new.
      * exists (new ++ [s']). rewrite <- app_assoc. split; [done|].
        apply Forall_app. by repeat constructor.
    + subst w'. by exists [].
Qed.












End Snapshots.

(** * A concrete host and concrete runs *)

(** ** The rollover poll while a past day is open *)

(** C1: the user has opened 2024-01-01 from the history list while today is
    2024-01-05.  When the day rolls over to 2024-01-06 the next poll seeds
    the new day, but it also moves the active key to 2024-01-06 and sets
    the tab to today; and even without any rollover the next poll moves the
    active key from the opened day back to 2024-01-05. *)
Theorem rolloverTick_history_view :
  dateKey browsingApp = "2024-01-01"
  ∧ dateKey (fst (rolloverTick demoHost "2024-01-06" browsingApp world0))
    = "2024-01-06"
  ∧ tab (fst (rolloverTick demoHost "2024-01-06" browsingApp world0)) = TabToday
  ∧ truthy (get (get (store (fst (rolloverTick demoHost "2024-01-06"
                                    browsingApp world0))) "days") "2024-01-06")
    = true
  ∧ dateKey (fst (rolloverTick demoHost "2024-01-05" browsingApp world0))
    = "2024-01-05".
Proof. by vm_compute. Qed.

(** ** Concrete runs: history view *)

(** After the legacy blob was loaded and today seeded, opening the migrated
    day rewrites its stored record: the item gains an id, a bucket, flags
    and a time stamp. *)
Lemma viewHistoryDay_rewrites_record :
  get (get (store legacyApp) "days") "2023-12-31"
  = JArr [JObj (<["text" := JStr "X"]> ∅)]
  ∧ get (get (store (fst (viewHistoryDay demoHost "2023-12-31" legacyApp
                            world0))) "days") "2023-12-31"
    = JArr [mkItem (JStr "t1700000000000-r0") (JStr "X") (JStr "morning")
              (JBool false) (JNum 1700000000001) (JBool false)]
  ∧ get (get (store (fst (viewHistoryDay demoHost "2023-12-31" legacyApp
                            world0))) "days") "2023-12-31"
    ≠ get (get (store legacyApp) "days") "2023-12-31".
Proof. by vm_compute. Qed.

Lemma viewHistoryDay_store_witness :
  dateKey (fst (viewHistoryDay demoHost "2023-12-31" viewedApp world0))
  = "2023-12-31"
  ∧ store (fst (viewHistoryDay demoHost "2023-12-31" viewedApp world0))
    = JObj (<["days" :=
               JObj (<["2023-12-31" :=
                        fst (normalizeDayItems demoHost
                               (JArr [JObj (<["text" := JStr "X"]> ∅)]) world0)]>
                       viewedDays)]> viewedFields).
Proof.
  refine (let P := viewHistoryDay_store demoHost viewedApp "2023-12-31"
                     viewedFields viewedDays
                     (JArr [JObj (<["text" := JStr "X"]> ∅)]) world0
                     _ _ _ _ _ in
          conj (proj1 (proj2 P)) (proj1 (proj2 (proj2 P)))).
  - reflexivity.
  - reflexivity.
  - reflexivity.
  - vm_compute. lia.
  - discriminate.
Defined.

(** ** Concrete runs: the store codec *)

(** A blob of the legacy shape whose [dateKey] is the empty string is not
    migrated: the loaded document has no day at all. *)
Lemma loadStore_empty_dateKey :
  JSON_parse demoHost emptyKeyBlob = Some (JObj emptyKeyFields)
  ∧ emptyKeyFields !! "dateKey" = Some (JStr "")
  ∧ emptyKeyFields !! "items" = Some (JArr [])
  ∧ get (loadStore demoHost (Some emptyKeyBlob)) "days" = JObj ∅
  ∧ size (own_props (get (loadStore demoHost (Some emptyKeyBlob)) "days")) ≠ 1.
Proof. by vm_compute. Qed.

Lemma loadStore_legacy_witness :
  loadStore demoHost (Some legacyBlob)
  = mkStore (JNum 2) emptyTemplates
      (JObj {[ "2023-12-31" := JArr [JObj (<["text" := JStr "X"]> ∅)] ]}).
Proof.
  refine (proj1 (loadStore_legacy demoHost legacyBlob legacyFields
                   "2023-12-31" [JObj (<["text" := JStr "X"]> ∅)] _ _ _ _ _)).
  - vm_compute. discriminate.
  - reflexivity.
  - reflexivity.
  - discriminate.
  - reflexivity.
Defined.

(** For a blob that does not parse the substituted document has empty
    template lists, unlike the document of a first run; and the empty blob
    is not reported as corrupt but answered with the first-run document. *)
Lemma corrupt_fallback_not_first_run :
  JSON_parse demoHost "{oops" = None
  ∧ loadStore demoHost (Some "{oops") = JNull
  ∧ get (get (initialStore demoHost (Some "{oops")) "templates") "morning"
    = JArr []
  ∧ get (get (loadStore demoHost None) "templates") "morning"
    = JArr [JStr "Water"; JStr "Stretch"; JStr "Plan day"]
  ∧ initialStore demoHost (Some "{oops") ≠ loadStore demoHost None
  ∧ JSON_parse demoHost "" = None
  ∧ loadStore demoHost (Some "") ≠ JNull.
Proof.
  repeat split; try reflexivity; try discriminate.
Qed.

Lemma loadStore_corrupt_witness :
  loadStore demoHost (Some "{oops") = JNull
  ∧ initialStore demoHost (Some "{oops")
    = mkStore (JNum 2) emptyTemplates (JObj ∅).
Proof.
  apply (loadStore_corrupt demoHost "{oops").
  - discriminate.
  - left. reflexivity.
Defined.

(** ** Concrete runs: normalizer and template removal *)

(** A truthy bucket that names none of the three buckets is kept, not
    replaced by [morning]. *)
Lemma normalize_keeps_unknown_bucket :
  ("night" ∉ BUCKETS)
  ∧ (∃ y, fst (normalizeDayItems demoHost
                 (JArr [JObj (<["text" := JStr "Y"]>
                               (<["bucket" := JStr "night"]> ∅))]) world0)
          = JArr [y]
          ∧ get y "bucket" = JStr "night"
          ∧ get y "bucket" ≠ JStr "morning").
Proof.
  split.
  - unfold BUCKETS. rewrite !elem_of_cons, elem_of_nil.
    intros [?|[?|[?|?]]]; done.
  - eexists. split; [vm_compute; reflexivity|]. by vm_compute.
Qed.

(** Removing at index -1 removes the last template of the bucket. *)
Lemma removeTemplate_negative_index :
  get (get defaultStore "templates") "morning"
  = JArr [JStr "Water"; JStr "Stretch"; JStr "Plan day"]
  ∧ ∃ next w',
      removeTemplateUpdater demoHost "morning" (-1) defaultStore world0
      = (Some next, w')
      ∧ get (get next "templates") "morning" = JArr [JStr "Water"; JStr "Stretch"]
      ∧ get (get next "templates") "morning"
        ≠ get (get defaultStore "templates") "morning".
Proof.
  split; [reflexivity|]. eexists _, _.
  split; [vm_compute; reflexivity|]. by vm_compute.
Qed.

Lemma removeTemplate_out_of_range_witness :
  ∃ next w',
    removeTemplateUpdater demoHost "morning" 5 defaultStore world0
    = (Some next, w')
    ∧ get (get next "templates") "morning"
      = JArr [JStr "Water"; JStr "Stretch"; JStr "Plan day"].
Proof.
  destruct (removeTemplate_out_of_range demoHost defaultStore "morning" 5
              [JStr "Water"; JStr "Stretch"; JStr "Plan day"] world0
              eq_refl) as (next & w' & Heq & _ & Hge & _).
  exists next, w'. split; [exact Heq|]. apply Hge. cbn [length]. lia.
Defined.

(** ** Concrete runs: pruning and expansion *)

Example pruneHistory_nine_days :
  sort_by cmp_desc (Object_keys (pruneHistory (JObj nineDays) 7))
  = ["2024-01-07"; "2024-01-06"; "2024-01-05"; "2024-01-04"; "2024-01-03";
     "2024-01-02"; "2024-01-01"].
Proof. by vm_compute. Qed.

Example makeItemsFromTemplates_abc :
  fst (makeItemsFromTemplates demoHost abcTemplates world0)
  = JArr [mkItem (JStr "t1700000000001-r0") (JStr "A") (JStr "morning")
            (JBool false) (JNum 1700000000000) (JBool true);
          mkItem (JStr "t1700000000002-r1") (JStr "B") (JStr "noon")
            (JBool false) (JNum 1700000000000) (JBool true);
          mkItem (JStr "t1700000000003-r2") (JStr "C") (JStr "evening")
            (JBool false) (JNum 1700000000000) (JBool true)].
Proof. by vm_compute. Qed.

Example splice1_cases :
  splice1 1 [JNum 1; JNum 2; JNum 3] = [JNum 1; JNum 3]
  ∧ splice1 3 [JNum 1; JNum 2; JNum 3] = [JNum 1; JNum 2; JNum 3]
  ∧ splice1 (-1) [JNum 1; JNum 2; JNum 3] = [JNum 1; JNum 2]
  ∧ splice1 (-7) [JNum 1; JNum 2; JNum 3] = [JNum 2; JNum 3].
Proof. by vm_compute. Qed.

Example trim_cases :
  trim "  Plan day  " = "Plan day" ∧ trim "   " = "" ∧ trim "a  b" = "a  b".
Proof. by vm_compute. Qed.

Example runOps_nine_days :
  (fun s => size (own_props (get s "days"))) <$>
    storage (snd (runOps demoHost
                    [OpSeed "2024-01-08"; OpAddTemplate "noon" " Nap ";
                     OpPersist "2023-12-30" (JArr []);
                     OpRemoveTemplate "noon" 0]
                    (mkStore (JNum 2) emptyTemplates (JObj nineDays)) world0))
  = [7; 7; 7; 7].
Proof. by vm_compute. Qed.

(** ** Concrete runs: a day under the key [__proto__] *)




(** ** Concrete runs: white space *)

Example trim_unicode :
  trim nbsp = ""
  ∧ trim (nbsp +:+ "Water ") = "Water"
  ∧ trim (" " +:+ ideographic_space) = ""
  ∧ trim ("a" +:+ nbsp +:+ "b") = "a" +:+ nbsp +:+ "b".
Proof. by vm_compute. Qed.

Example makeItemsFromTemplates_padded :
  fst (makeItemsFromTemplates demoHost paddedTemplates world0)
  = JArr [mkItem (JStr "t1700000000001-r0") (JStr "Water") (JStr "morning")
            (JBool false) (JNum 1700000000000) (JBool true);
          mkItem (JStr "t1700000000002-r1") (JStr "Lunch") (JStr "noon")
            (JBool false) (JNum 1700000000000) (JBool true)].
Proof. by vm_compute. Qed.

Lemma makeItemsFromTemplates_order_witness :
  ∃ its w' tm tn te,
    makeItemsFromTemplates demoHost paddedTemplates world0 = (JArr its, w')
    ∧ TrimKept [nbsp +:+ "Water "; nbsp; ""] tm
    ∧ TrimKept ["Lunch"; " " +:+ ideographic_space] tn
    ∧ TrimKept [] te
    ∧ (fun x => (get x "bucket", get x "text")) <$> its
      = (fun bt => (JStr bt.1, JStr bt.2)) <$>
          ((pair "morning" <$> tm) ++ (pair "noon" <$> tn)
           ++ (pair "evening" <$> te))%list
    ∧ Forall (fun x => get x "done" = JBool false
                       ∧ get x "fromTemplate" = JBool true
                       ∧ get x "createdAt" = JNum (clock demoHost (ticks world0)))
        its
    ∧ (∀ i x, its !! i = Some x →
         get x "id" = JStr (radix36 demoHost
                              (clock demoHost (ticks world0 + 1 + i))
                            +:+ "-" +:+ random36 demoHost (draws world0 + i)))
    ∧ draws w' = draws world0 + length its
    ∧ ticks w' = ticks world0 + 1 + length its.
Proof.
  apply (makeItemsFromTemplates_order demoHost paddedTemplates
           [nbsp +:+ "Water "; nbsp; ""] ["Lunch"; " " +:+ ideographic_space]
           [] world0).
  - reflexivity.
  - reflexivity.
  - reflexivity.
Defined.

(** * Further properties of the program *)

(** ** Loading *)

Lemma get_own_props (v : jsval) (k : string) :
  k ≠ "length" → get v k = default JUndef (own_props v !! k).
Proof.
  intros Hk. apply String.eqb_neq in Hk.
  destruct v; cbn [get own_props]; rewrite ?Hk, ?lookup_empty; done.
Qed.

Section Loading.
Context (H : Host).



(** A blob that parses to an object with truthy [version], [templates] and
    [days], and that is not of the legacy shape, loads as exactly the
    parsed object: nothing is added, dropped or rewritten. *)
Theorem loadStore_current (raw : string) (m : gmap string jsval) :
  raw ≠ "" →
  JSON_parse H raw = Some (JObj m) →
  truthy (get (JObj m) "version") = true →
  truthy (get (JObj m) "templates") = true →
  truthy (get (JObj m) "days") = true →
  truthy (get (JObj m) "dateKey") && isArray (get (JObj m) "items") = false →
  loadStore H (Some raw) = JObj m.
Proof.
  intros Hraw Hparse Hv Ht Hd Hlegacy.
  unfold loadStore. destruct raw as [|c raw]; [done|].
  unfold safeJSONParse. rewrite Hparse.
  cbn [truthy typeof_object negb orb].
  by rewrite Hlegacy, Hv, Ht, Hd.
Qed.

End Loading.

(** ** Normalizing and seeding *)

Lemma templateTexts_elem (H : Host) (templates : jsval) (b s : string) :
  s ∈ templateTexts H templates b → s ≠ "" ∧ trim s = s.
Proof.
  unfold templateTexts. rewrite list_elem_of_In, filter_In, <- list_elem_of_In.
  rewrite negb_true_iff, eqb_empty_false, list_elem_of_fmap.
  intros [(t & -> & _) Hne]. split; [done|apply trim_idem].
Qed.

Lemma expansionTexts_elem (H : Host) (templates : jsval)
    (bt : string * string) :
  bt ∈ expansionTexts H templates →
  bt.1 ≠ "" ∧ bt.2 ≠ "" ∧ trim bt.2 = bt.2.
Proof.
  unfold expansionTexts. rewrite !elem_of_app, !list_elem_of_fmap.
  intros [(s & -> & Hs)|[(s & -> & Hs)|(s & -> & Hs)]];
    apply templateTexts_elem in Hs as [? ?]; done.
Qed.

Section Seeding.
Context (H : Host).

Lemma itemAt_normal (now : Z) (t0 d0 : nat) (b : string) (i : nat)
    (text : string) :
  b ≠ "" → text ≠ "" → trim text = text →
  normalItem (itemAt H now t0 d0 b i text).
Proof.
  intros Hb Ht Htrim. split.
  - eexists _, _, _, _, _, _. split; [reflexivity|].
    split; [apply truthy_JStr, uid_text_nonempty|].
    split; [done|]. by apply truthy_JStr.
  - unfold itemAt. rewrite get_mkItem_text. by apply truthy_JStr.
Qed.

Lemma makeItemsFromTemplates_normal (templates : jsval) (w : World) :
  ∃ l, fst (makeItemsFromTemplates H templates w) = JArr l
       ∧ Forall normalItem l.
Proof.
  rewrite makeItemsFromTemplates_eq. eexists. split; [reflexivity|].
  apply Forall_lookup. intros i x Hx.
  apply list_lookup_imap_Some in Hx as (bt & Hbt & ->).
  apply list_elem_of_lookup_2, expansionTexts_elem in Hbt as (? & ? & ?).
  by apply itemAt_normal.
Qed.

(** The items the template engine makes are normalized items: running the
    normalizer over a fresh expansion returns it unchanged (ids and time
    stamps included) and draws no new id, so a seeded day is stable under
    the sync effect. *)
Theorem expansion_normalized (templates : jsval) (w w' : World) :
  normalizeDayItems H (fst (makeItemsFromTemplates H templates w)) w'
  = (fst (makeItemsFromTemplates H templates w), w').
Proof.
  destruct (makeItemsFromTemplates_normal templates w) as (l & -> & Hl).
  by apply normalizeDayItems_fix.
Qed.

Lemma mapM_length {A B} (f : A → M B) (l : list A) (w : World) :
  length (fst (mapM f l w)) = length l.
Proof.
  revert w. induction l as [|x l IH]; intros w; [done|].
  cbn [mapM]. unfold bind at 1. destruct (f x w) as [y w1].
  unfold bind at 1. specialize (IH w1). destruct (mapM f l w1) as [ys w2].
  cbn [fst ret length] in *. by rewrite IH.
Qed.

Lemma filter_length_le {A} (f : A → bool) (l : list A) :
  length (List.filter f l) ≤ length l.
Proof.
  induction l as [|x l IH]; [done|]. cbn [List.filter].
  destruct (f x); cbn [length]; lia.
Qed.

Lemma normalizeItem_get_text (x : jsval) (w : World) :
  get (fst (normalizeItem H x w)) "text"
  = JStr (trim (to_str H (js_or (get x "text") (JStr "")))).
Proof.
  unfold normalizeItem, bind, ret.
  destruct (truthy (get x "id")); [|destruct (uid H w) as [u w1]];
    destruct (typeof_number (get x "createdAt")); cbn [Date_now fst];
    by rewrite get_mkItem_text.
Qed.

Lemma mapM_normalizeItem_texts (xs : list jsval) (w : World) :
  (fun y => get y "text") <$> fst (mapM (normalizeItem H) xs w)
  = (fun x => JStr (trim (to_str H (js_or (get x "text") (JStr ""))))) <$> xs.
Proof.
  revert w. induction xs as [|x xs IH]; intros w; [done|].
  cbn [mapM]. unfold bind at 1.
  pose proof (normalizeItem_get_text x w) as Hx.
  destruct (normalizeItem H x w) as [y w1]. unfold bind at 1.
  specialize (IH w1). destruct (mapM (normalizeItem H) xs w1) as [ys w2].
  cbn [fst ret fmap list_fmap] in *. by rewrite Hx, IH.
Qed.

Lemma filter_fmap_comm {A B} (f : A → B) (p : B → bool) (l : list A) :
  List.filter p (f <$> l) = f <$> List.filter (fun x => p (f x)) l.
Proof.
  induction l as [|x l IH]; [done|]. cbn [fmap list_fmap List.filter].
  destruct (p (f x)); cbn [fmap list_fmap]; by rewrite IH.
Qed.

(** For every value whose object elements carry a string as [text] (an
    absent or falsy [text] counts as the empty string), the normalizer
    returns an array of normalized items (six fields each, a truthy id, a
    trimmed text that is not empty, a truthy bucket, boolean flags, a
    numeric time stamp), no longer than the input array; their texts are,
    in input order, those strings cut of the white space at their two
    ends, without the strings that are white space only. *)
Theorem normalizeDayItems_result (L : jsval) (ss : list string) (w : World) :
  (fun x => js_or (get x "text") (JStr "")) <$>
    List.filter (fun x => truthy x && typeof_object x) (arrayItems L)
    = JStr <$> ss →
  ∃ l ts,
    fst (normalizeDayItems H L w) = JArr l
    ∧ Forall normalItem l
    ∧ length l ≤ length (arrayItems L)
    ∧ TrimKept ss ts
    ∧ (fun y => get y "text") <$> l = JStr <$> ts.
Proof.
  intros Hss.
  destruct (normalizeDayItems_normal H L w) as (l & Hl & Hnormal).
  exists l, (List.filter (fun s => negb (String.eqb s "")) (trim <$> ss)).
  split; [done|]. split; [done|].
  split; [|split; [apply filter_TrimKept|]].
  - destruct L as [| | | | |l0|]; cbn [normalizeDayItems arrayItems] in *;
      try (injection Hl as <-; done).
    unfold bind, ret in Hl.
    set (xs := List.filter (fun x => truthy x && typeof_object x) l0) in *.
    pose proof (mapM_length (normalizeItem H) xs w) as Hlen.
    destruct (mapM (normalizeItem H) xs w) as [ys w1]. cbn [fst] in *.
    injection Hl as <-.
    etrans; [apply filter_length_le|]. rewrite Hlen. apply filter_length_le.
  - assert (trim <$> ss
            = (fun x => trim (to_str H (js_or (get x "text") (JStr ""))))
                <$> List.filter (fun x => truthy x && typeof_object x)
                      (arrayItems L)) as ->.
    { rewrite <- (to_str_JStr H ss), <- Hss, <- !list_fmap_compose. done. }
    destruct L as [| | | | |l0|]; cbn [normalizeDayItems arrayItems] in *;
      try (injection Hl as <-; done).
    unfold bind, ret in Hl.
    set (xs := List.filter (fun x => truthy x && typeof_object x) l0) in *.
    pose proof (mapM_normalizeItem_texts xs w) as Htexts.
    destruct (mapM (normalizeItem H) xs w) as [ys w1]. cbn [fst] in *.
    injection Hl as <-.
    transitivity
      (List.filter truthy
         (JStr <$> ((fun x => trim (to_str H (js_or (get x "text") (JStr ""))))
                      <$> xs))).
    + rewrite <- list_fmap_compose.
      change (JStr ∘ _) with
        (fun x => JStr (trim (to_str H (js_or (get x "text") (JStr ""))))).
      rewrite <- Htexts. symmetry.
      apply (filter_fmap_comm (fun y => get y "text") truthy).
    + apply (filter_fmap_comm JStr truthy).
Qed.

End Seeding.

(** ** Pruning twice *)

Lemma keptKeys_sorted (days : gmap string jsval) (keep : nat) :
  StronglySorted (precedes cmp_desc) (keptKeys days keep).
Proof.
  unfold keptKeys.
  pose proof (sort_by_desc_sorted (Object_keys (JObj days))) as Hs.
  rewrite <- (take_drop keep) in Hs. by eapply StronglySorted_app_1_l.
Qed.

Lemma pruneHistory_is_obj (days : gmap string jsval) (keep : nat) :
  pruneHistory (JObj days) keep = JObj (own_props (pruneHistory (JObj days) keep)).
Proof. reflexivity. Qed.

Lemma sorted_keys_of_pruned (days : gmap string jsval) (keep : nat) :
  sort_by cmp_desc (Object_keys (pruneHistory (JObj days) keep))
  = keptKeys days keep.
Proof.
  apply (StronglySorted_unique (precedes cmp_desc)).
  - apply sort_by_desc_sorted.
  - apply keptKeys_sorted.
  - rewrite sort_by_perm. apply NoDup_Permutation.
    + apply NoDup_fst_map_to_list.
    + apply keptKeys_NoDup.
    + intros k. unfold Object_keys.
      rewrite <- (elem_of_list_to_set (C := gset string) k (keptKeys days keep)).
      rewrite <- pruneHistory_dom, elem_of_dom, list_elem_of_fmap. split.
      * intros [[k' v] [-> Hin]]. apply elem_of_map_to_list in Hin. by exists v.
      * intros [v Hv]. exists (k, v). split; [done|].
        by apply elem_of_map_to_list.
Qed.

(** Pruning a pruned map prunes the original map to the smaller of the two
    bounds, for every days map that has no key [__proto__]; in particular
    pruning is idempotent there, so the repeated pruning of every write
    loses nothing beyond the first. *)
Theorem pruneHistory_twice (days : gmap string jsval) (k1 k2 : nat) :
  days !! "__proto__" = None →
  pruneHistory (pruneHistory (JObj days) k2) k1
  = pruneHistory (JObj days) (min k1 k2)
  ∧ pruneHistory (pruneHistory (JObj days) k2) k2 = pruneHistory (JObj days) k2.
Proof.
  intros _.
  assert (∀ a b, pruneHistory (pruneHistory (JObj days) b) a
                 = pruneHistory (JObj days) (min a b)) as Hgen.
  { intros a b. rewrite (pruneHistory_is_obj days b).
    rewrite (pruneHistory_is_obj _ a), (pruneHistory_is_obj days (min a b)).
    f_equal. apply map_eq. intros k.
    rewrite !pruneHistory_lookup.
    assert (keptKeys (own_props (pruneHistory (JObj days) b)) a
            = keptKeys days (min a b)) as ->.
    { unfold keptKeys at 1. rewrite <- pruneHistory_is_obj.
      rewrite sorted_keys_of_pruned. unfold keptKeys. apply take_take. }
    case_decide as Hin; [|done].
    rewrite decide_True; [done|].
    unfold keptKeys in *. rewrite <- take_take in Hin.
    by apply subseteq_take in Hin. }
  split; [apply Hgen|]. by rewrite Hgen, Nat.min_id.
Qed.

(** ** Seeding a day *)

Section SeedDay.
Context (H : Host).

Lemma seedDayUpdater_obj (tk : string) (m days : gmap string jsval)
    (w : World) :
  m !! "days" = Some (JObj days) →
  fst (seedDayUpdater H tk (JObj m) w)
  = JObj (<["days" :=
             pruneHistory
               (JObj (if truthy (default JUndef (days !! tk)) then days
                      else <[tk := fst (makeItemsFromTemplates H
                                          (default JUndef (m !! "templates")) w)]>
                             days)) 7]> m).
Proof.
  intros Hdays. unfold seedDayUpdater. cbn [get own_props].
  rewrite Hdays. cbn [from_option id]. unfold js_or. cbn [truthy own_props].
  rewrite lookup_insert_ne by done.
  destruct (truthy (default JUndef (days !! tk))); cbn [negb];
    unfold bind, ret.
  - cbn [saveStore fst]. by rewrite insert_insert_eq.
  - destruct (makeItemsFromTemplates H _ w) as [its w1].
    cbn [saveStore fst]. by rewrite insert_insert_eq.
Qed.

(** On a document whose days have no key [__proto__], and for a day key
    that is a key of the days or no property name of [Object.prototype],
    what the seed writes is what [seedDayUpdater] writes: there the two
    assignments create own properties. *)
Lemma seedDaySave_agrees (tk : string) (prev : jsval) (w : World) :
  own_props (js_or (get prev "days") (JObj ∅)) !! "__proto__" = None →
  (own_props (js_or (get prev "days") (JObj ∅)) !! tk = None →
     tk ∉ Object_prototype_keys) →
  snd (seedDaySave H tk prev w) = snd (seedDayUpdater H tk prev w).
Proof.
  unfold seedDaySave, seedDayUpdater.
  set (days0 := own_props (js_or (get prev "days") (JObj ∅))).
  set (next0 := <["days" := JObj days0]> (own_props prev)).
  intros Hnone Htk. cbn [own].
  assert (readTruthy {| own := days0; proto := None |} tk
          = truthy (get (JObj days0) tk)) as ->.
  { unfold readTruthy. cbn [own get].
    destruct (days0 !! tk) as [v|]; [done|].
    cbn [default truthy]. by rewrite bool_decide_false by auto. }
  assert (tk ≠ "__proto__" ∨ is_Some (days0 !! tk)) as Hkey.
  { destruct (days0 !! tk) as [v|] eqn:E; [by right|left].
    intros ->. apply Htk; [done|]. apply (bool_decide_unpack _).
    by vm_compute. }
  assert (tk ≠ "__proto__") as Hne.
  { destruct Hkey as [?|[v Hv]]; [done|]. intros ->. congruence. }
  destruct (truthy (get (JObj days0) tk)); cbn [negb]; unfold bind, ret.
  - pose proof (pruneHistory_heap_agrees {| own := days0; proto := None |} 7
                  Hnone) as Ha.
    destruct (pruneHistory_heap _ (Some 0) 7) as [kept h].
    cbn [fst snd own] in Ha. by rewrite Ha.
  - subst next0.
    destruct (makeItemsFromTemplates H _ w) as [its w1].
    rewrite assignProp_other by done. cbn [own proto].
    pose proof (pruneHistory_heap_agrees
                  {| own := <[tk := its]> days0; proto := None |} 7) as Ha.
    destruct (pruneHistory_heap _ (Some 0) 7) as [kept h].
    cbn [fst snd own] in Ha. rewrite Ha; [done|].
    by rewrite lookup_insert_ne.
Qed.

(** Seeding never alters another day: in the document the seeding updater
    returns, every day other than [tk] is either gone (pruned) or holds the
    record it held before; all fields of the document other than [days]
    are kept. *)
Theorem seedDayUpdater_other_days (tk : string) (m days : gmap string jsval)
    (w : World) :
  m !! "days" = Some (JObj days) →
  ∃ m' days',
    fst (seedDayUpdater H tk (JObj m) w) = JObj m'
    ∧ m' !! "days" = Some (JObj days')
    ∧ (∀ f, f ≠ "days" → m' !! f = m !! f)
    ∧ (∀ k, k ≠ tk → days' !! k = None ∨ days' !! k = days !! k).
Proof.
  intros Hdays. rewrite (seedDayUpdater_obj tk m days w Hdays).
  eexists _, _. split; [reflexivity|]. split.
  { rewrite lookup_insert_eq. by rewrite pruneHistory_is_obj. }
  split; [intros f Hf; by rewrite lookup_insert_ne|].
  intros k Hk. rewrite pruneHistory_lookup.
  case_decide; [right|by left].
  destruct (truthy _); [done|]. by rewrite lookup_insert_ne.
Qed.

(** Seeding a day that already has a (truthy) record, in a document of at
    most 7 days none of which is under the key [__proto__], returns the
    document unchanged, and neither reads the clock nor draws an id: the
    templates are not expanded again. *)
Theorem seedDayUpdater_present (tk : string) (m days : gmap string jsval)
    (v : jsval) (w : World) :
  m !! "days" = Some (JObj days) →
  days !! "__proto__" = None →
  days !! tk = Some v →
  truthy v = true →
  (size days ≤ 7)%nat →
  fst (seedDayUpdater H tk (JObj m) w) = JObj m
  ∧ ticks (snd (seedDayUpdater H tk (JObj m) w)) = ticks w
  ∧ draws (snd (seedDayUpdater H tk (JObj m) w)) = draws w.
Proof.
  intros Hdays _ Hv Htruthy Hsize. split.
  - rewrite (seedDayUpdater_obj tk m days w Hdays), Hv. cbn [default].
    unfold id. rewrite Htruthy, pruneHistory_small by done.
    by rewrite insert_id.
  - unfold seedDayUpdater. cbn [get own_props]. rewrite Hdays.
    cbn [from_option id]. unfold js_or. cbn [truthy own_props get].
    rewrite Hv. cbn [from_option id]. rewrite Htruthy. cbn [negb].
    unfold bind, ret. by cbn [saveStore snd ticks draws].
Qed.

(** Seeding a day that has no record yet, in a document of fewer than 7
    days none of which is under the key [__proto__], adds the fresh
    expansion of the document's templates under that day and keeps every
    other day as it was; the day's key is any string that is no property
    name of [Object.prototype], as every date key is. *)
Theorem seedDayUpdater_missing (tk : string) (m days : gmap string jsval)
    (w : World) :
  m !! "days" = Some (JObj days) →
  days !! "__proto__" = None →
  tk ∉ Object_prototype_keys →
  days !! tk = None →
  (size days < 7)%nat →
  fst (seedDayUpdater H tk (JObj m) w)
  = JObj (<["days" :=
             JObj (<[tk := fst (makeItemsFromTemplates H
                                  (default JUndef (m !! "templates")) w)]>
                     days)]> m).
Proof.
  intros Hdays _ _ Hnone Hsize.
  rewrite (seedDayUpdater_obj tk m days w Hdays), Hnone. cbn [default truthy].
  rewrite pruneHistory_small; [done|].
  rewrite map_size_insert_None by done. lia.
Qed.

End SeedDay.

(** ** Writes outside the retention window *)

Lemma ltb_asym (a b : string) :
  String.ltb a b = true → String.ltb b a = true → False.
Proof.
  unfold String.ltb. rewrite (String.compare_antisym a b).
  destruct (String.compare b a); simpl; done.
Qed.



Section OutsideWindow.
Context (H : Host).


End OutsideWindow.

(** ** Write-back and reload of the working copy *)

Section WriteBack.
Context (H : Host).

Lemma persistItemsUpdater_fits (m days : gmap string jsval) (k : string)
    (its : jsval) (w : World) :
  m !! "days" = Some (JObj days) →
  (size (<[k := its]> days) ≤ 7)%nat →
  fst (persistItemsUpdater H k its (JObj m) w)
  = JObj (<["days" := JObj (<[k := its]> days)]> m).
Proof.
  intros Hdays Hsize. unfold persistItemsUpdater, bind, ret.
  cbn [saveStore fst get own_props]. rewrite Hdays. cbn [from_option id].
  unfold js_or. cbn [truthy own_props]. by rewrite pruneHistory_small.
Qed.

(** When the working copy is an array of normalized items and the days map
    with the active day written has at most 7 entries, the persist effect
    stores exactly the working copy under the active key, leaves the other
    days and fields alone, and a following sync effect reads the same items
    back: write-back and reload lose nothing. *)
Theorem persist_then_sync (a : App) (m days : gmap string jsval)
    (l : list jsval) (w w' : World) :
  store a = JObj m →
  m !! "days" = Some (JObj days) →
  items a = JArr l →
  Forall normalItem l →
  (size (<[dateKey a := JArr l]> days) ≤ 7)%nat →
  store (fst (persistItemsEffect H a w))
  = JObj (<["days" := JObj (<[dateKey a := JArr l]> days)]> m)
  ∧ get (get (store (fst (persistItemsEffect H a w))) "days") (dateKey a)
    = JArr l
  ∧ items (fst (syncItemsEffect H (fst (persistItemsEffect H a w)) w'))
    = items a.
Proof.
  intros Hstore Hdays Hitems Hl Hsize.
  assert (fst (persistItemsEffect H a w)
          = {| tab := tab a;
               store := JObj (<["days" := JObj (<[dateKey a := JArr l]> days)]> m);
               dateKey := dateKey a; items := JArr l |}) as ->.
  { unfold persistItemsEffect, setStore, bind, ret. rewrite Hstore, Hitems.
    pose proof (persistItemsUpdater_fits m days (dateKey a) (JArr l) w
                  Hdays Hsize) as Hp.
    destruct (persistItemsUpdater H (dateKey a) (JArr l) (JObj m) w)
      as [next w1]. cbn [fst] in *. by subst next. }
  cbn [store dateKey items].
  assert (get (get (JObj (<["days" := JObj (<[dateKey a := JArr l]> days)]> m))
                 "days") (dateKey a) = JArr l) as Hget.
  { cbn [get]. rewrite lookup_insert_eq. cbn [from_option id get].
    by rewrite lookup_insert_eq. }
  split; [done|]. split; [done|].
  unfold syncItemsEffect, bind, ret. cbn [store dateKey].
  rewrite Hget, normalizeDayItems_fix by done. by rewrite Hitems.
Qed.

End WriteBack.

(** ** The history list *)

Lemma sorted_strict (l : list string) :
  StronglySorted (precedes cmp_desc) l → NoDup l →
  StronglySorted (fun a b => String.ltb b a = true) l.
Proof.
  induction 1 as [|x l Hs IH Hx]; intros Hnd; [constructor|].
  apply NoDup_cons in Hnd as [Hnin Hnd]. constructor; [by apply IH|].
  apply Forall_forall. intros y Hy.
  apply precedes_desc_ne_ltb; [|by intros ->].
  by eapply Forall_forall in Hx.
Qed.

(** The history list is strictly descending in the order of [<] on strings
    (newest first, hence without duplicates); it lists exactly the keys of
    [store.days], and it is empty when [store.days] is missing. *)
Theorem historyKeys_sorted (store : jsval) :
  StronglySorted (fun a b => String.ltb b a = true) (historyKeys store)
  ∧ (∀ k, k ∈ historyKeys store
          ↔ is_Some (own_props (js_or (get store "days") (JObj ∅)) !! k))
  ∧ length (historyKeys store)
    = size (own_props (js_or (get store "days") (JObj ∅)))
  ∧ (truthy (get store "days") = false → historyKeys store = []).
Proof.
  unfold historyKeys.
  set (d := own_props (js_or (get store "days") (JObj ∅))).
  assert (Object_keys (js_or (get store "days") (JObj ∅)) = Object_keys (JObj d))
    as -> by done.
  split; [|split; [|split]].
  - apply sorted_strict; [apply sort_by_desc_sorted|apply sorted_keys_NoDup].
  - apply elem_of_sorted_keys.
  - by rewrite (Permutation_length (sorted_keys_perm d)), length_fmap,
      length_map_to_list.
  - intros Hfalsy. subst d. unfold js_or. rewrite Hfalsy. by vm_compute.
Qed.

(** ** Template management *)

Lemma splice1_in_range (idx : Z) (l : list jsval) :
  (0 ≤ idx < Z.of_nat (length l))%Z → splice1 idx l = delete (Z.to_nat idx) l.
Proof.
  intros Hr. unfold splice1.
  destruct (idx <? 0)%Z eqn:E; [lia|].
  rewrite Z.min_l by lia. rewrite Z.min_l by lia.
  rewrite Z2Nat.inj_add by lia. rewrite delete_take_drop.
  change (Z.to_nat 1) with 1. by rewrite Nat.add_1_r.
Qed.

Section Templates.
Context (H : Host).

Lemma templates_bucket (m t : gmap string jsval) (b : string) :
  m !! "templates" = Some (JObj t) →
  get (get (JObj m) "templates") b = default JUndef (t !! b).
Proof. intros Ht. cbn [get]. by rewrite Ht. Qed.

Lemma removeTemplateUpdater_fst (m t : gmap string jsval) (b : string)
    (idx : Z) (l : list jsval) (w : World) :
  m !! "templates" = Some (JObj t) →
  t !! b = Some (JArr l) →
  fst (removeTemplateUpdater H b idx (JObj m) w)
  = Some (JObj (<["templates" := JObj (<[b := JArr (splice1 idx l)]> t)]> m)).
Proof.
  intros Ht Hb. unfold removeTemplateUpdater.
  rewrite (templates_bucket m t b Ht), Hb. cbn [from_option id].
  unfold js_or. cbn [truthy spread_array]. unfold bind, ret.
  cbn [saveStore fst get own_props]. rewrite Ht. by cbn [from_option id own_props].
Qed.

Lemma addTemplateUpdater_fst (m t : gmap string jsval) (b trimmed : string)
    (l : list jsval) (w : World) :
  m !! "templates" = Some (JObj t) →
  t !! b = Some (JArr l) →
  fst (addTemplateUpdater H b trimmed (JObj m) w)
  = Some (JObj (<["templates" := JObj (<[b := JArr (JStr trimmed :: l)]> t)]> m)).
Proof.
  intros Ht Hb. unfold addTemplateUpdater.
  rewrite (templates_bucket m t b Ht), Hb. cbn [from_option id].
  unfold js_or. cbn [truthy spread_array]. unfold bind, ret.
  cbn [saveStore fst get own_props]. rewrite Ht. by cbn [from_option id own_props].
Qed.

(** Removing at an index inside the list removes exactly the template at
    that position: the bucket's list loses that one element, the other
    buckets and every other field of the document stay as they were. *)
Theorem removeTemplate_in_range (m t : gmap string jsval) (b : string)
    (idx : Z) (l : list jsval) (w : World) :
  m !! "templates" = Some (JObj t) →
  t !! b = Some (JArr l) →
  (0 ≤ idx < Z.of_nat (length l))%Z →
  fst (removeTemplateUpdater H b idx (JObj m) w)
  = Some (JObj (<["templates" :=
                   JObj (<[b := JArr (delete (Z.to_nat idx) l)]> t)]> m)).
Proof.
  intros Ht Hb Hr. rewrite (removeTemplateUpdater_fst m t b idx l w Ht Hb).
  by rewrite splice1_in_range.
Qed.

Lemma addTemplate_undo (m t : gmap string jsval) (b text : string)
    (l : list jsval) (w : World) :
  m !! "templates" = Some (JObj t) →
  t !! b = Some (JArr l) →
  trim text ≠ "" →
  ∃ s1 w1 w2,
    applyOp H (OpAddTemplate b text) (JObj m) w = (Some s1, w1)
    ∧ get (get s1 "templates") b = JArr (JStr (trim text) :: l)
    ∧ applyOp H (OpRemoveTemplate b 0) s1 w1 = (Some (JObj m), w2).
Proof.
  intros Ht Hb Hne. cbn [applyOp].
  apply eqb_empty_false in Hne. rewrite Hne.
  set (t1 := <[b := JArr (JStr (trim text) :: l)]> t).
  set (m1 := <["templates" := JObj t1]> m).
  exists (JObj m1), (snd (addTemplateUpdater H b (trim text) (JObj m) w)),
    (snd (removeTemplateUpdater H b 0 (JObj m1)
            (snd (addTemplateUpdater H b (trim text) (JObj m) w)))).
  split; [|split].
  - rewrite (surjective_pairing (addTemplateUpdater _ _ _ _ _)).
    by rewrite (addTemplateUpdater_fst m t b (trim text) l w Ht Hb).
  - subst m1 t1. cbn [get]. rewrite lookup_insert_eq. cbn [from_option id get].
    by rewrite lookup_insert_eq.
  - rewrite (surjective_pairing (removeTemplateUpdater _ _ _ _ _)).
    rewrite (removeTemplateUpdater_fst m1 t1 b 0 (JStr (trim text) :: l)).
    + subst m1 t1. rewrite !insert_insert_eq.
      rewrite splice1_in_range by (cbn [length]; lia).
      cbn [Z.to_nat delete list_delete].
      rewrite (insert_id t b) by done. by rewrite (insert_id m "templates").
    + subst m1. by rewrite lookup_insert_eq.
    + subst t1. by rewrite lookup_insert_eq.
Qed.

(** Adding a template with a text that is not white space only puts that
    text, cut of the white space at its two ends, at the head of the
    bucket's list, and removing at index 0 afterwards gives back the
    document as it was before the addition. *)
Theorem addTemplate_then_remove (m t : gmap string jsval) (b text : string)
    (l : list jsval) (w : World) :
  m !! "templates" = Some (JObj t) →
  t !! b = Some (JArr l) →
  ¬ WhiteSpace (bytes text) →
  ∃ s1 w1 w2 trimmed,
    Trimmed text trimmed
    ∧ trimmed ≠ ""
    ∧ applyOp H (OpAddTemplate b text) (JObj m) w = (Some s1, w1)
    ∧ get (get s1 "templates") b = JArr (JStr trimmed :: l)
    ∧ applyOp H (OpRemoveTemplate b 0) s1 w1 = (Some (JObj m), w2).
Proof.
  intros Ht Hb Hws. rewrite WhiteSpace_trim in Hws.
  destruct (addTemplate_undo m t b text l w Ht Hb Hws)
    as (s1 & w1 & w2 & Hadd & Hget & Hrem).
  exists s1, w1, w2, (trim text). split; [apply trim_Trimmed|]. done.
Qed.

(** A blank template text changes nothing and writes nothing. *)
Lemma addTemplate_blank (b text : string) (prev : jsval) (w : World) :
  trim text = "" → applyOp H (OpAddTemplate b text) prev w = (Some prev, w).
Proof. intros Hb. cbn [applyOp]. by rewrite Hb. Qed.

End Templates.

(** ** The activity board *)

Lemma withDone_mkItem (d : bool) (id text bucket done createdAt ft : jsval) :
  withDone d (mkItem id text bucket done createdAt ft)
  = mkItem id text bucket (JBool d) createdAt ft.
Proof. reflexivity. Qed.

Lemma withDone_normal (d : bool) (it : jsval) :
  normalItem it → normalItem (withDone d it).
Proof.
  intros [(id & text & bucket & done & createdAt & ft & -> & Hid & Ht & Hb) Htext].
  rewrite withDone_mkItem. split.
  - by eexists _, _, _, _, _, _.
  - by rewrite get_mkItem_text in *.
Qed.

Lemma normalItem_done (it : jsval) :
  normalItem it → ∃ d, get it "done" = JBool d ∧ withDone d it = it.
Proof.
  intros [(id & text & bucket & done & createdAt & ft & -> & _) _].
  exists done. by rewrite withDone_mkItem, get_mkItem_done.
Qed.

Lemma withDone_get (d : bool) (it : jsval) (f : string) :
  f ≠ "done" → f ≠ "length" → get (withDone d it) f = get it f.
Proof.
  intros Hf Hl. unfold withDone. cbn [get]. rewrite lookup_insert_ne by done.
  by rewrite get_own_props.
Qed.

Lemma withDone_withDone (d d' : bool) (it : jsval) :
  withDone d (withDone d' it) = withDone d it.
Proof. unfold withDone. cbn [own_props]. by rewrite insert_insert_eq. Qed.

Lemma fmap_fixed {A} (f : A → A) (l : list A) :
  Forall (fun x => f x = x) l → f <$> l = l.
Proof.
  induction 1 as [|x l Hx _ IH]; [done|]. cbn [fmap list_fmap] in *.
  by rewrite Hx, IH.
Qed.

Lemma get_withDone_done (d : bool) (it : jsval) :
  get (withDone d it) "done" = JBool d.
Proof. unfold withDone. cbn [get]. by rewrite lookup_insert_eq. Qed.

(** Toggling the same id twice gives back the list of normalized items it
    started from: every field of every item, [done] included, is as
    before. *)
Theorem toggleDone_twice (id : string) (l : list jsval) :
  Forall normalItem l →
  ∃ l1, toggleDone id (JArr l) = Some (JArr l1)
        ∧ toggleDone id (JArr l1) = Some (JArr l).
Proof.
  intros Hl. unfold toggleDone, array_map. eexists. split; [reflexivity|].
  rewrite <- list_fmap_compose. do 2 f_equal. apply fmap_fixed.
  eapply Forall_impl; [exact Hl|]. intros it Hit. cbn [compose].
  destruct (strict_eq_str (get it "id") id) eqn:E; [|by rewrite E].
  rewrite withDone_get, E by done.
  rewrite get_withDone_done, withDone_withDone. cbn [truthy].
  destruct (normalItem_done it Hit) as (d & Hd & Hfix).
  rewrite Hd. cbn [truthy]. by rewrite negb_involutive.
Qed.

(** Toggling keeps the length and the order of the list; an item whose id
    is the given string has its [done] negated (as a boolean) and every
    other field kept, every other item is left as it is; when no item has
    the id the list is unchanged. *)
Theorem toggleDone_effect (id : string) (l : list jsval) :
  ∃ l',
    toggleDone id (JArr l) = Some (JArr l')
    ∧ length l' = length l
    ∧ (∀ i it, l !! i = Some it →
         ∃ it', l' !! i = Some it'
                ∧ (∀ f, f ≠ "done" → f ≠ "length" → get it' f = get it f)
                ∧ get it' "done"
                  = if strict_eq_str (get it "id") id
                    then JBool (negb (truthy (get it "done")))
                    else get it "done")
    ∧ (Forall (fun it => strict_eq_str (get it "id") id = false) l → l' = l).
Proof.
  unfold toggleDone, array_map. eexists. split; [reflexivity|].
  split; [apply length_fmap|]. split.
  - intros i it Hi. eexists. rewrite list_lookup_fmap, Hi.
    split; [reflexivity|].
    destruct (strict_eq_str (get it "id") id); [|done].
    split; [intros f ? ?; by apply withDone_get|apply get_withDone_done].
  - intros Hnone. apply fmap_fixed.
    eapply Forall_impl; [exact Hnone|]. intros it Hit. cbn beta. by rewrite Hit.
Qed.

(** Marking a bucket done and then clearing the completed items leaves
    exactly the items of the other buckets that were not done, unchanged
    and in their order. *)
Theorem markAllDone_then_clear (bucketId : string) (l : list jsval) :
  ∃ l1,
    markAllDone bucketId (JArr l) = Some (JArr l1)
    ∧ clearCompleted (JArr l1)
      = Some (JArr (List.filter
                      (fun it => negb (strict_eq_str (get it "bucket") bucketId)
                                 && negb (truthy (get it "done"))) l)).
Proof.
  unfold markAllDone, clearCompleted, array_map, array_filter.
  eexists. split; [reflexivity|]. do 2 f_equal.
  induction l as [|it l IH]; [done|].
  cbn [fmap list_fmap List.filter] in *.
  destruct (strict_eq_str (get it "bucket") bucketId); cbn [negb andb].
  - rewrite get_withDone_done. cbn [truthy negb]. apply IH.
  - destruct (negb (truthy (get it "done"))); by rewrite IH.
Qed.

(** Every operation of the board maps an array of normalized items to an
    array of normalized items, so the working copy stays a fixed point of
    the normalizer and is written back and read again unchanged. *)
Theorem board_keeps_normal (l : list jsval) :
  Forall normalItem l →
  (∀ id, ∃ l', toggleDone id (JArr l) = Some (JArr l') ∧ Forall normalItem l')
  ∧ (∀ id, ∃ l', removeItem id (JArr l) = Some (JArr l') ∧ Forall normalItem l')
  ∧ (∃ l', clearCompleted (JArr l) = Some (JArr l') ∧ Forall normalItem l')
  ∧ (∀ b, ∃ l', markAllDone b (JArr l) = Some (JArr l') ∧ Forall normalItem l').
Proof.
  intros Hl.
  assert (∀ p, Forall normalItem (List.filter p l)) as Hfilter.
  { intros p. eapply Forall_impl; [by apply Forall_filter_both|].
    by intros x [? _]. }
  assert (∀ (c : jsval → bool) (d : jsval → bool),
            Forall normalItem
              ((fun it => if c it then withDone (d it) it else it) <$> l))
    as Hmap.
  { intros c d. apply Forall_fmap. eapply Forall_impl; [exact Hl|].
    intros it Hit. cbn [compose]. destruct (c it); [|done].
    by apply withDone_normal. }
  split; [|split; [|split]].
  - intros id. eexists. split; [reflexivity|].
    apply (Hmap (fun it => strict_eq_str (get it "id") id)
             (fun it => negb (truthy (get it "done")))).
  - intros id. eexists. split; [reflexivity|]. apply Hfilter.
  - eexists. split; [reflexivity|]. apply Hfilter.
  - intros b. eexists. split; [reflexivity|].
    apply (Hmap (fun it => strict_eq_str (get it "bucket") b) (fun _ => true)).
Qed.

Section AddItem.
Context (H : Host).

Lemma addItem_nonblank (text bucket : string) (l : list jsval) (w : World) :
  trim text ≠ "" →
  fst (addItem H text bucket (JArr l) w)
  = Some (JArr (mkItem (JStr (fst (uid H w))) (JStr (trim text)) (JStr bucket)
                  (JBool false) (JNum (clock H (S (ticks w)))) (JBool false)
                :: l)).
Proof.
  intros Hne. unfold addItem. apply eqb_empty_false in Hne. rewrite Hne.
  unfold bind, ret. rewrite uid_eq. by cbn [Date_now afterUids ticks fst
    spread_array Nat.add]; rewrite Nat.add_1_r.
Qed.

Lemma addItem_trimmed (text bucket : string) (l : list jsval) (w : World) :
  (trim text = "" → addItem H text bucket (JArr l) w = (Some (JArr l), w))
  ∧ (trim text ≠ "" →
       ∃ it, fst (addItem H text bucket (JArr l) w) = Some (JArr (it :: l))
             ∧ get it "text" = JStr (trim text)
             ∧ get it "bucket" = JStr bucket
             ∧ get it "done" = JBool false
             ∧ get it "fromTemplate" = JBool false
             ∧ get it "id" = JStr (fst (uid H w))
             ∧ (bucket ≠ "" → Forall normalItem l →
                  Forall normalItem (it :: l))).
Proof.
  split.
  - intros Hb. unfold addItem. by rewrite Hb.
  - intros Hne. eexists. split; [by apply addItem_nonblank|].
    rewrite get_mkItem_text, get_mkItem_bucket, get_mkItem_done,
      get_mkItem_fromTemplate, get_mkItem_id.
    do 5 (split; [done|]). intros Hb Hl. constructor; [|done]. split.
    + eexists _, _, _, _, _, _. split; [reflexivity|].
      split; [apply uid_truthy|]. split; [apply trim_idem|].
      by apply truthy_JStr.
    + rewrite get_mkItem_text. by apply truthy_JStr.
Qed.

(** Adding with a text of white space only changes nothing, draws no id
    and reads no clock.  Otherwise the new item stands first, before the
    previous items in their order, with the text cut of the white space at
    its two ends, the chosen bucket, [done] and [fromTemplate] false; and
    with a bucket that is not the empty string an array of normalized
    items stays one. *)
Theorem addItem_result (text bucket : string) (l : list jsval) (w : World) :
  (WhiteSpace (bytes text) →
     addItem H text bucket (JArr l) w = (Some (JArr l), w))
  ∧ (¬ WhiteSpace (bytes text) →
       ∃ it trimmed,
         Trimmed text trimmed
         ∧ trimmed ≠ ""
         ∧ fst (addItem H text bucket (JArr l) w) = Some (JArr (it :: l))
         ∧ get it "text" = JStr trimmed
         ∧ get it "bucket" = JStr bucket
         ∧ get it "done" = JBool false
         ∧ get it "fromTemplate" = JBool false
         ∧ get it "id" = JStr (fst (uid H w))
         ∧ (bucket ≠ "" → Forall normalItem l →
              Forall normalItem (it :: l))).
Proof.
  destruct (addItem_trimmed text bucket l w) as [Hblank Hitem].
  split.
  - intros Hws. by apply Hblank, WhiteSpace_trim.
  - intros Hws. rewrite WhiteSpace_trim in Hws.
    destruct (Hitem Hws) as (it & Hit). exists it, (trim text).
    split; [apply trim_Trimmed|]. done.
Qed.

(** Adding an item and then removing the id it was given returns the list
    as it was, provided no earlier item carries that id. *)
Theorem addItem_then_removeItem (text bucket : string) (l : list jsval)
    (w : World) :
  trim text ≠ "" →
  Forall (fun it => strict_eq_str (get it "id") (fst (uid H w)) = false) l →
  ∃ l1, fst (addItem H text bucket (JArr l) w) = Some (JArr l1)
        ∧ removeItem (fst (uid H w)) (JArr l1) = Some (JArr l).
Proof.
  intros Hne Hfresh. eexists. split; [by apply addItem_nonblank|].
  unfold removeItem, array_filter. cbn [List.filter].
  rewrite get_mkItem_id. cbn [strict_eq_str].
  rewrite String.eqb_refl. cbn [negb]. do 2 f_equal.
  apply filter_all_true. eapply Forall_impl; [exact Hfresh|].
  intros it Hit. cbn beta. by rewrite Hit.
Qed.

End AddItem.

(** ** The rollover poll and the reset *)

Section Rollover.
Context (H : Host).

(** A second poll on the same day does nothing: after one firing of the
    interval for [tk], another firing for [tk] changes no cell of the state
    and writes nothing.  The poll moves to [tk] in one step, whatever key
    was active before. *)
Theorem rolloverTick_settles (tk : string) (a : App) (w : World) :
  dateKey (fst (rolloverTick H tk a w)) = tk
  ∧ rolloverTick H tk (fst (rolloverTick H tk a w)) (snd (rolloverTick H tk a w))
    = rolloverTick H tk a w.
Proof.
  assert (dateKey (fst (rolloverTick H tk a w)) = tk) as Hk.
  { unfold rolloverTick. case_decide as Hd.
    - unfold bind, ret. by destruct (setStore _ a w).
    - by cbn [ret fst]. }
  split; [done|].
  destruct (rolloverTick H tk a w) as [a1 w1]. cbn [fst snd] in *.
  unfold rolloverTick at 1. by rewrite decide_False by (by intros ?).
Qed.

(** Resetting while today is the active day and letting the persist effect
    run stores the fresh expansion of the templates as the record of today,
    whatever the record held before, and leaves the other days as they
    were (the document having at most 7 days, today among them). *)
Theorem resetToday_persisted (a : App) (m days : gmap string jsval)
    (v : jsval) (w : World) :
  store a = JObj m →
  m !! "days" = Some (JObj days) →
  days !! dateKey a = Some v →
  (size days ≤ 7)%nat →
  let a1 := fst (resetToday H (dateKey a) a w) in
  let w1 := snd (resetToday H (dateKey a) a w) in
  items a1 = fst (makeItemsFromTemplates H (get (store a) "templates") w)
  ∧ store (fst (persistItemsEffect H a1 w1))
    = JObj (<["days" := JObj (<[dateKey a := items a1]> days)]> m).
Proof.
  intros Hstore Hdays Hv Hsize a1 w1. subst a1 w1.
  unfold resetToday, bind, ret.
  destruct (makeItemsFromTemplates H (get (store a) "templates") w)
    as [its w1]. cbn [fst snd items].
  split; [done|].
  unfold persistItemsEffect, setStore, bind, ret. cbn [store dateKey items].
  rewrite Hstore.
  pose proof (persistItemsUpdater_fits H m days (dateKey a) its w1 Hdays) as Hp.
  destruct (persistItemsUpdater H (dateKey a) its (JObj m) w1) as [next w2].
  cbn [fst store] in *. apply Hp.
  rewrite map_size_insert_Some by done. done.
Qed.

End Rollover.

(** ** Date keys *)

Lemma ltb_trans (a b c : string) :
  String.ltb a b = true → String.ltb b c = true → String.ltb a c = true.
Proof.
  intros Hab Hbc. destruct (String.ltb a c) eqn:E; [done|].
  apply ltb_false_le in E.
  assert (String.le a b) as Hle.
  { destruct (total String.le a b) as [|Hba]; [done|].
    apply ltb_false_le in Hba. congruence. }
  assert (String.le c b) as Hcb by (by trans a).
  apply ltb_false_le in Hcb. congruence.
Qed.

Lemma ltb_irrefl (a : string) : String.ltb a a = false.
Proof. apply ltb_false_le. done. Qed.

Lemma ascii_compare_refl (c : Ascii.ascii) : Ascii.compare c c = Eq.
Proof. unfold Ascii.compare. apply N.compare_refl. Qed.

Lemma compare_app_same (a s t : string) :
  String.compare (a +:+ s) (a +:+ t) = String.compare s t.
Proof.
  induction a as [|c a IH]; [done|].
  change (String.compare (String c (a +:+ s)) (String c (a +:+ t))
          = String.compare s t).
  cbn [String.compare]. by rewrite ascii_compare_refl.
Qed.

Lemma compare_app_lt (a b s t : string) :
  String.length a = String.length b →
  String.compare a b = Lt → String.compare (a +:+ s) (b +:+ t) = Lt.
Proof.
  revert b. induction a as [|c a IH]; intros [|c' b] Hlen Hlt; try done.
  change (String.compare (String c (a +:+ s)) (String c' (b +:+ t)) = Lt).
  cbn [String.compare] in *.
  destruct (Ascii.compare c c'); [|done..].
  apply IH; [|done]. cbn [String.length] in Hlen. lia.
Qed.

Lemma length_string_app (a b : string) :
  String.length (a +:+ b) = String.length a + String.length b.
Proof.
  induction a as [|c a IH]; [done|].
  change (S (String.length (a +:+ b)) = S (String.length a + String.length b)).
  by rewrite IH.
Qed.

Lemma ltb_lt (a b : string) :
  String.ltb a b = true ↔ String.compare a b = Lt.
Proof. unfold String.ltb. destruct (String.compare a b); split; done. Qed.

Lemma ltb_app_same (a s t : string) :
  String.ltb (a +:+ s) (a +:+ t) = String.ltb s t.
Proof. unfold String.ltb. by rewrite compare_app_same. Qed.

Lemma ltb_app_lt (a b s t : string) :
  String.length a = String.length b →
  String.ltb a b = true → String.ltb (a +:+ s) (b +:+ t) = true.
Proof. rewrite !ltb_lt. apply compare_app_lt. Qed.

Lemma increasing_from_steps (f : nat → string) (lo hi : nat) :
  (∀ n, lo ≤ n < hi → String.ltb (f n) (f (S n)) = true) →
  ∀ a b, lo ≤ a → a < b → b ≤ hi → String.ltb (f a) (f b) = true.
Proof.
  intros Hstep a b Hlo Hab. induction Hab as [|b Hab IH]; intros Hhi.
  - apply Hstep. lia.
  - eapply ltb_trans; [apply IH; lia|]. apply Hstep. lia.
Qed.

Lemma year_digits_steps :
  forallb (fun y => (String.length (pretty y) =? 4)
                    && String.ltb (pretty y) (pretty (S y)))
    (seq 1000 (9 * 1000 - 1)) = true.
Proof. by vm_compute. Qed.

Lemma two_digits_steps :
  forallb (fun n => (String.length (padStart2 (pretty n)) =? 2)
                    && String.ltb (padStart2 (pretty n))
                         (padStart2 (pretty (S n))))
    (seq 0 99) = true.
Proof. by vm_compute. Qed.

Lemma year_digits (y : nat) :
  1000 ≤ y < 10 * 1000 → String.length (pretty y) = 4.
Proof.
  intros Hy. destruct (decide (y = 10 * 1000 - 1)) as [->|Hne].
  { by vm_compute. }
  pose proof year_digits_steps as Hall.
  rewrite forallb_forall in Hall. specialize (Hall y).
  rewrite in_seq, andb_true_iff, Nat.eqb_eq in Hall. apply Hall. lia.
Qed.

Lemma year_increasing (y1 y2 : nat) :
  1000 ≤ y1 → y1 < y2 → y2 < 10 * 1000 →
  String.ltb (pretty y1) (pretty y2) = true.
Proof.
  intros Hlo Hlt Hhi.
  apply (increasing_from_steps pretty 1000 (10 * 1000 - 1)); [|lia..].
  intros n Hn. pose proof year_digits_steps as Hall.
  rewrite forallb_forall in Hall. specialize (Hall n).
  rewrite in_seq, andb_true_iff in Hall. apply Hall. lia.
Qed.

Lemma two_digits (n : nat) :
  n < 99 → String.length (padStart2 (pretty n)) = 2.
Proof.
  intros Hn. pose proof two_digits_steps as Hall.
  rewrite forallb_forall in Hall. specialize (Hall n).
  rewrite in_seq, andb_true_iff, Nat.eqb_eq in Hall. apply Hall. lia.
Qed.

Lemma two_digits_increasing (n1 n2 : nat) :
  n1 < n2 → n2 ≤ 99 →
  String.ltb (padStart2 (pretty n1)) (padStart2 (pretty n2)) = true.
Proof.
  intros Hlt Hhi.
  apply (increasing_from_steps (fun n => padStart2 (pretty n)) 0 99); [|lia..].
  intros n Hn. pose proof two_digits_steps as Hall.
  rewrite forallb_forall in Hall. specialize (Hall n).
  rewrite in_seq, andb_true_iff in Hall. apply Hall. lia.
Qed.

Lemma todayKey_earlier (d1 d2 : LocalDate) :
  validDate d1 → validDate d2 → earlier d1 d2 →
  String.ltb (todayKey d1) (todayKey d2) = true.
Proof.
  intros (Hy1 & Hm1 & Hd1) (Hy2 & Hm2 & Hd2) He. unfold todayKey.
  destruct He as [Hy|[Hy [Hm|[Hm Hd]]]].
  - apply ltb_app_lt; [by rewrite !year_digits|].
    apply year_increasing; lia.
  - rewrite Hy, ltb_app_same, (ltb_app_same "-").
    apply ltb_app_lt; [rewrite !two_digits by lia; done|].
    apply two_digits_increasing; lia.
  - rewrite Hy, Hm, ltb_app_same, (ltb_app_same "-"), ltb_app_same,
      (ltb_app_same "-").
    apply two_digits_increasing; lia.
Qed.

(** For calendar days of four-digit years the order of [<] on the keys is
    the order of the days: the key of an earlier day is the smaller string
    and conversely, so equal keys mean the same day and the greatest keys
    are the most recent days; every key is 10 characters long. *)
Theorem todayKey_order (d1 d2 : LocalDate) :
  validDate d1 → validDate d2 →
  (String.ltb (todayKey d1) (todayKey d2) = true ↔ earlier d1 d2)
  ∧ (todayKey d1 = todayKey d2 → d1 = d2)
  ∧ String.length (todayKey d1) = 10.
Proof.
  intros Hv1 Hv2.
  assert (earlier d1 d2 ∨ d1 = d2 ∨ earlier d2 d1) as Htri.
  { destruct d1 as [y1 m1 a1], d2 as [y2 m2 a2]. unfold earlier.
    cbn [getFullYear getMonth getDate].
    destruct (lt_eq_lt_dec y1 y2) as [[?| ->]|?]; [lia| |lia].
    destruct (lt_eq_lt_dec m1 m2) as [[?| ->]|?]; [lia| |lia].
    destruct (lt_eq_lt_dec a1 a2) as [[?| ->]|?]; [lia| |lia]. by right; left. }
  split; [|split].
  - split; [|by apply todayKey_earlier].
    intros Hlt. destruct Htri as [?|[->|He]]; [done| |].
    + by rewrite ltb_irrefl in Hlt.
    + exfalso. eapply ltb_asym; [exact Hlt|]. by apply todayKey_earlier.
  - intros Heq. destruct Htri as [He|[?|He]]; [|done|].
    + apply todayKey_earlier in He; [|done..].
      by rewrite Heq, ltb_irrefl in He.
    + apply todayKey_earlier in He; [|done..].
      by rewrite Heq, ltb_irrefl in He.
  - destruct Hv1 as (Hy & Hm & Hd). unfold todayKey.
    rewrite !length_string_app, year_digits, !two_digits by lia. done.
Qed.

(** * Further concrete runs *)

Lemma sampleItems_normal : Forall normalItem sampleItems.
Proof.
  repeat constructor;
    try (eexists _, _, _, _, _, _; split; [reflexivity|by vm_compute]);
    by vm_compute.
Qed.


Lemma loadStore_current_witness :
  loadStore currentHost (Some currentBlob) = JObj currentFields.
Proof.
  apply (loadStore_current currentHost currentBlob currentFields).
  - vm_compute. discriminate.
  - reflexivity.
  - reflexivity.
  - reflexivity.
  - reflexivity.
  - reflexivity.
Defined.

Lemma seedDayUpdater_other_days_witness :
  ∃ m' days',
    fst (seedDayUpdater demoHost "2024-01-02" (JObj abcFields) world0) = JObj m'
    ∧ m' !! "days" = Some (JObj days')
    ∧ (∀ f, f ≠ "days" → m' !! f = abcFields !! f)
    ∧ (∀ k, k ≠ "2024-01-02" →
         days' !! k = None ∨ days' !! k = viewedDays !! k).
Proof.
  apply (seedDayUpdater_other_days demoHost "2024-01-02" abcFields viewedDays
           world0).
  reflexivity.
Defined.

Lemma seedDayUpdater_present_witness :
  fst (seedDayUpdater demoHost "2024-01-01" (JObj abcFields) world0)
  = JObj abcFields
  ∧ ticks (snd (seedDayUpdater demoHost "2024-01-01" (JObj abcFields) world0))
    = ticks world0
  ∧ draws (snd (seedDayUpdater demoHost "2024-01-01" (JObj abcFields) world0))
    = draws world0.
Proof.
  apply (seedDayUpdater_present demoHost "2024-01-01" abcFields viewedDays
           (JArr []) world0).
  - reflexivity.
  - reflexivity.
  - reflexivity.
  - reflexivity.
  - vm_compute. lia.
Defined.

Lemma seedDayUpdater_missing_witness :
  fst (seedDayUpdater demoHost "2024-01-02" (JObj abcFields) world0)
  = JObj (<["days" :=
             JObj (<["2024-01-02" :=
                      fst (makeItemsFromTemplates demoHost
                             (default JUndef (abcFields !! "templates")) world0)]>
                     viewedDays)]> abcFields).
Proof.
  apply (seedDayUpdater_missing demoHost "2024-01-02" abcFields viewedDays
           world0).
  - reflexivity.
  - reflexivity.
  - apply (bool_decide_unpack _). by vm_compute.
  - reflexivity.
  - vm_compute. lia.
Defined.

Lemma pruneHistory_twice_witness :
  pruneHistory (pruneHistory (JObj nineDays) 8) 7
  = pruneHistory (JObj nineDays) (min 7 8)
  ∧ pruneHistory (pruneHistory (JObj nineDays) 8) 8
    = pruneHistory (JObj nineDays) 8.
Proof. apply (pruneHistory_twice nineDays 7 8). reflexivity. Defined.

Lemma normalizeDayItems_result_witness :
  ∃ l ts,
    fst (normalizeDayItems demoHost rawDay world0) = JArr l
    ∧ Forall normalItem l
    ∧ length l ≤ length (arrayItems rawDay)
    ∧ TrimKept [" Call Ann" +:+ nbsp; nbsp; ""] ts
    ∧ (fun y => get y "text") <$> l = JStr <$> ts.
Proof.
  apply (normalizeDayItems_result demoHost rawDay
           [" Call Ann" +:+ nbsp; nbsp; ""] world0).
  reflexivity.
Defined.


Lemma persist_then_sync_witness :
  get (get (store (fst (persistItemsEffect demoHost sampleApp world0))) "days")
    "2024-01-01" = JArr sampleItems
  ∧ items (fst (syncItemsEffect demoHost
                  (fst (persistItemsEffect demoHost sampleApp world0)) world0))
    = items sampleApp.
Proof.
  refine (proj2 (persist_then_sync demoHost sampleApp abcFields viewedDays
                   sampleItems world0 world0 _ _ _ _ _)).
  - reflexivity.
  - reflexivity.
  - reflexivity.
  - exact sampleItems_normal.
  - vm_compute. lia.
Defined.

Lemma removeTemplate_in_range_witness :
  fst (removeTemplateUpdater demoHost "noon" 0 (JObj abcFields) world0)
  = Some (JObj (<["templates" := JObj (<["noon" := JArr []]> abcBuckets)]>
                  abcFields)).
Proof.
  apply (removeTemplate_in_range demoHost abcFields abcBuckets "noon" 0
           [JStr "B"] world0).
  - reflexivity.
  - reflexivity.
  - cbn [length]. lia.
Defined.

Lemma addTemplate_then_remove_witness :
  ∃ s1 w1 w2 trimmed,
    Trimmed " Nap " trimmed
    ∧ trimmed ≠ ""
    ∧ applyOp demoHost (OpAddTemplate "noon" " Nap ") (JObj abcFields) world0
      = (Some s1, w1)
    ∧ get (get s1 "templates") "noon" = JArr [JStr trimmed; JStr "B"]
    ∧ applyOp demoHost (OpRemoveTemplate "noon" 0) s1 w1
      = (Some (JObj abcFields), w2).
Proof.
  apply (addTemplate_then_remove demoHost abcFields abcBuckets "noon" " Nap "
           [JStr "B"] world0).
  - reflexivity.
  - reflexivity.
  - rewrite WhiteSpace_trim. vm_compute. discriminate.
Defined.

Lemma toggleDone_twice_witness :
  ∃ l1, toggleDone "a1" (JArr sampleItems) = Some (JArr l1)
        ∧ toggleDone "a1" (JArr l1) = Some (JArr sampleItems).
Proof. apply (toggleDone_twice "a1" sampleItems), sampleItems_normal. Defined.

Lemma board_keeps_normal_witness :
  ∃ l', clearCompleted (JArr sampleItems) = Some (JArr l')
        ∧ Forall normalItem l'.
Proof.
  apply (proj1 (proj2 (proj2 (board_keeps_normal sampleItems
                                 sampleItems_normal)))).
Defined.

Lemma addItem_then_removeItem_witness :
  ∃ l1, fst (addItem demoHost " Gym " "evening" (JArr sampleItems) world0)
        = Some (JArr l1)
        ∧ removeItem (fst (uid demoHost world0)) (JArr l1)
          = Some (JArr sampleItems).
Proof.
  apply (addItem_then_removeItem demoHost " Gym " "evening" sampleItems world0).
  - vm_compute. discriminate.
  - repeat constructor.
Defined.

Lemma addItem_result_witness :
  addItem demoHost nbsp "noon" (JArr sampleItems) world0
  = (Some (JArr sampleItems), world0)
  ∧ ∃ it trimmed,
      Trimmed (" Gym" +:+ nbsp) trimmed
      ∧ trimmed ≠ ""
      ∧ fst (addItem demoHost (" Gym" +:+ nbsp) "noon" (JArr sampleItems) world0)
        = Some (JArr (it :: sampleItems))
      ∧ get it "text" = JStr trimmed
      ∧ get it "bucket" = JStr "noon"
      ∧ get it "done" = JBool false
      ∧ get it "fromTemplate" = JBool false
      ∧ get it "id" = JStr (fst (uid demoHost world0))
      ∧ ("noon" ≠ "" → Forall normalItem sampleItems →
           Forall normalItem (it :: sampleItems)).
Proof.
  split.
  - apply (proj1 (addItem_result demoHost nbsp "noon" sampleItems world0)).
    rewrite WhiteSpace_trim. by vm_compute.
  - apply (proj2 (addItem_result demoHost (" Gym" +:+ nbsp) "noon" sampleItems
                    world0)).
    rewrite WhiteSpace_trim. vm_compute. discriminate.
Defined.

(** A typed no-break space is a blank input: neither an item nor a
    template is added. *)
Example blank_inputs_ignored :
  addItem demoHost nbsp "noon" (JArr sampleItems) world0
  = (Some (JArr sampleItems), world0)
  ∧ applyOp demoHost (OpAddTemplate "noon" nbsp) (JObj abcFields) world0
    = (Some (JObj abcFields), world0)
  ∧ fst (makeItemsFromTemplates demoHost
           (JObj (<["morning" := JArr [JStr nbsp]]> ∅)) world0) = JArr [].
Proof. by vm_compute. Qed.

Lemma resetToday_persisted_witness :
  store (fst (persistItemsEffect demoHost
                (fst (resetToday demoHost "2024-01-01" sampleApp world0))
                (snd (resetToday demoHost "2024-01-01" sampleApp world0))))
  = JObj (<["days" :=
             JObj (<["2024-01-01" :=
                      items (fst (resetToday demoHost "2024-01-01" sampleApp
                                    world0))]> viewedDays)]> abcFields).
Proof.
  refine (proj2 (resetToday_persisted demoHost sampleApp abcFields viewedDays
                   (JArr []) world0 _ _ _ _)).
  - reflexivity.
  - reflexivity.
  - reflexivity.
  - vm_compute. lia.
Defined.

Lemma todayKey_order_witness :
  String.ltb (todayKey {| getFullYear := 2023; getMonth := 11; getDate := 31 |})
             (todayKey {| getFullYear := 2024; getMonth := 0; getDate := 1 |})
  = true.
Proof.
  refine (proj2 (proj1 (todayKey_order
                   {| getFullYear := 2023; getMonth := 11; getDate := 31 |}
                   {| getFullYear := 2024; getMonth := 0; getDate := 1 |}
                   _ _)) _).
  - unfold validDate. cbn [getFullYear getMonth getDate]. lia.
  - unfold validDate. cbn [getFullYear getMonth getDate]. lia.
  - left. cbn [getFullYear]. lia.
Defined.
